(** * Mystic Companion Finder: the approximate astronomical position engine

    A shallow embedding of the astronomical helpers of [app.py]
    ([to_julian_day] ... [house_from_longitude], and the phase direction
    computed inline in [app]) together with the properties the specification
    states about them.

    Two readings of Python's [float] are used, side by side:

    - the top-level definitions read a [float] as an exact real number
      ([R]): every arithmetic operation is the mathematical one, [math.sin],
      [math.cos], [math.tan] and [math.atan] are the functions of the Standard
      Library's [Reals].  Universally quantified properties are proved on this
      reading.
    - [Module F64] reads a [float] as an IEEE-754 binary64 value (the kernel's
      primitive floats): the functions that use arithmetic only, and the
      ascendant over any four functions standing for the C library's [sin],
      [cos], [tan] and [atan].  It is evaluated on concrete inputs, where it
      gives the very number CPython gives.

    The two readings agree on the shape of every computation and differ only
    by rounding.  Where rounding changes a discrete outcome on a concrete
    input (a house number, an exception), the binary64 reading is what the
    program does, and the property is settled there. *)

From Stdlib Require Import ZArith Reals Lra Lia List String Bool.
From Stdlib Require Import Floats.
Import ListNotations.

Set Warnings "-inexact-float".

(** ** Python's numeric operations, on exact reals *)

Module Py.

Local Open Scope R_scope.

(** [math.floor]: the greatest integer below a real. *)
Definition floor (x : R) : Z := Int_part x.

(** [int(x)] on a float: truncation toward zero. *)
Definition int (x : R) : Z :=
  if Rle_dec 0 x then floor x else (- floor (- x))%Z.

(** [x % y] on floats: the remainder takes the sign of the divisor [y], so
    that [x = y * floor(x / y) + x % y].  The source only ever divides by the
    literal [360], so [ZeroDivisionError] cannot arise from [%]. *)
Definition rem (x y : R) : R := x - y * IZR (floor (x / y)).

(** [x // y] on floats: the floor of the quotient, still a float. *)
Definition floordiv (x y : R) : R := IZR (floor (x / y)).

(** [math.radians] and [math.degrees]. *)
Definition radians (x : R) : R := x * (PI / 180).
Definition degrees (x : R) : R := x * (180 / PI).

(** [round(x, 1)]: the nearest multiple of one tenth, a tie going to the even
    neighbour. *)
Definition round_half_even (x : R) : Z :=
  let f := floor x in
  if Rlt_dec (x - IZR f) (1 / 2) then f
  else if Rlt_dec (1 / 2) (x - IZR f) then (f + 1)%Z
  else if Z.even f then f else (f + 1)%Z.

Definition round1 (x : R) : R := IZR (round_half_even (x * 10)) / 10.

(** The exceptions the modelled functions can raise, and the outcome of a
    call that may raise. *)
Inductive exn : Set :=
  ZeroDivisionError | IndexError | ValueError | OverflowError.

Inductive result (A : Type) : Type :=
| Ok (a : A)
| Raise (e : exn).
Arguments Ok {A} a.
Arguments Raise {A} e.

(** [x / y] on floats raises when the divisor is zero. *)
Definition truediv (x y : R) : result R :=
  if Req_EM_T y 0 then Raise ZeroDivisionError else Ok (x / y).

Definition bind {A B : Type} (r : result A) (k : A -> result B) : result B :=
  match r with
  | Ok a => k a
  | Raise e => Raise e
  end.

(** [l[i]] on a list: a negative index counts from the end, an index out of
    range raises [IndexError]. *)
Definition getitem {A : Type} (l : list A) (i : Z) : result A :=
  let n := Z.of_nat (List.length l) in
  let j := if (i <? 0)%Z then (i + n)%Z else i in
  if (j <? 0)%Z then Raise IndexError
  else match nth_error l (Z.to_nat j) with
       | Some a => Ok a
       | None => Raise IndexError
       end.

(** *** Facts about [floor], [int], [rem] *)

Lemma floor_bounds (x : R) : IZR (floor x) <= x < IZR (floor x) + 1.
Proof.
  unfold floor. destruct (base_Int_part x) as [H1 H2]. lra.
Qed.

Lemma floor_unique (x : R) (n : Z) :
  IZR n <= x < IZR n + 1 -> floor x = n.
Proof.
  intros [H1 H2]. unfold floor. symmetry. apply Int_part_spec. lra.
Qed.

Lemma floor_IZR (n : Z) : floor (IZR n) = n.
Proof. apply floor_unique. lra. Qed.

Lemma floor_add_IZR (x : R) (k : Z) : floor (x + IZR k) = (floor x + k)%Z.
Proof.
  apply floor_unique. rewrite plus_IZR.
  pose proof (floor_bounds x). lra.
Qed.

Lemma floor_le (x y : R) : x <= y -> (floor x <= floor y)%Z.
Proof.
  intros Hxy.
  pose proof (floor_bounds x) as Hx. pose proof (floor_bounds y) as Hy.
  assert (H : IZR (floor x) < IZR (floor y + 1)) by (rewrite plus_IZR; lra).
  apply lt_IZR in H. lia.
Qed.

(** The floor of a ratio of integers is the integer quotient. *)
Lemma floor_div_IZR (a b : Z) :
  (0 < b)%Z -> floor (IZR a / IZR b) = (a / b)%Z.
Proof.
  intros Hb. apply floor_unique.
  assert (Hb' : 0 < IZR b) by (apply IZR_lt; lia).
  pose proof (Z.div_mod a b ltac:(lia)) as Hdm.
  pose proof (Z.mod_pos_bound a b Hb) as Hm.
  assert (Ha : IZR a = IZR b * IZR (a / b) + IZR (a mod b)).
  { rewrite <- mult_IZR, <- plus_IZR. f_equal. exact Hdm. }
  assert (H0 : 0 <= IZR (a mod b)) by (apply IZR_le; lia).
  assert (H1 : IZR (a mod b) < IZR b) by (apply IZR_lt; lia).
  split.
  - apply Rmult_le_reg_r with (IZR b); [exact Hb'|].
    unfold Rdiv. rewrite Rmult_assoc, Rinv_l by lra. nra.
  - apply Rmult_lt_reg_r with (IZR b); [exact Hb'|].
    unfold Rdiv. rewrite Rmult_assoc, Rinv_l by lra. nra.
Qed.

Lemma int_nonneg (x : R) : 0 <= x -> int x = floor x.
Proof.
  intros Hx. unfold int. destruct (Rle_dec 0 x); [reflexivity | contradiction].
Qed.

Lemma int_IZR (n : Z) : int (IZR n) = n.
Proof.
  unfold int. destruct (Rle_dec 0 (IZR n)).
  - apply floor_IZR.
  - rewrite <- opp_IZR, floor_IZR. lia.
Qed.

Lemma rem_bounds (x y : R) : 0 < y -> 0 <= rem x y < y.
Proof.
  intros Hy. unfold rem.
  pose proof (floor_bounds (x / y)) as [H1 H2].
  assert (Hx : x = x / y * y) by (field; lra).
  split; nra.
Qed.

Lemma rem_small (x y : R) : 0 <= x < y -> rem x y = x.
Proof.
  intros [H0 H1]. unfold rem.
  assert (Hf : floor (x / y) = 0%Z).
  { apply floor_unique. simpl. split.
    - apply Rmult_le_reg_r with y; [lra|].
      unfold Rdiv. rewrite Rmult_assoc, Rinv_l by lra. lra.
    - apply Rmult_lt_reg_r with y; [lra|].
      unfold Rdiv. rewrite Rmult_assoc, Rinv_l by lra. lra. }
  rewrite Hf. simpl. lra.
Qed.

Lemma rem_add_multiple (x y : R) (k : Z) :
  y <> 0 -> rem (x + IZR k * y) y = rem x y.
Proof.
  intros Hy. unfold rem.
  replace ((x + IZR k * y) / y) with (x / y + IZR k) by (field; exact Hy).
  rewrite floor_add_IZR, plus_IZR. ring.
Qed.

Lemma rem_rem (x y : R) : 0 < y -> rem (rem x y) y = rem x y.
Proof. intros Hy. apply rem_small, rem_bounds, Hy. Qed.

(** [x % y] differs from [x] by a whole number of [y]. *)
Lemma rem_shift (x y : R) : rem x y = x + IZR (- floor (x / y)) * y.
Proof. unfold rem. rewrite opp_IZR. ring. Qed.

End Py.

Import Py.
Local Open Scope R_scope.
Local Open Scope string_scope.

(** ** Constants and the data model *)

Definition ZODIAC : list string :=
  [ "Aries"; "Taurus"; "Gemini"; "Cancer"; "Leo"; "Virgo";
    "Libra"; "Scorpio"; "Sagittarius"; "Capricorn"; "Aquarius"; "Pisces" ].

(** The fields of a naive [datetime.datetime], all integers.
    [to_julian_day] reads the first six; [microsecond] is part of the value
    (and of its order) but is never read by the source. *)
Record datetime : Set := {
  year : Z;
  month : Z;
  day : Z;
  hour : Z;
  minute : Z;
  second : Z;
  microsecond : Z
}.

(** [datetime(year, month, day, hour, minute, second)]: the constructor with
    [microsecond] left at its default, 0. *)
Definition mk_datetime (year month day hour minute second : Z) : datetime :=
  Build_datetime year month day hour minute second 0.

(** ** Astronomical helpers *)

Definition to_julian_day (dt : datetime) : R :=
  let year0 := year dt in
  let month0 := month dt in
  let day := IZR (day dt)
             + (IZR (hour dt) + (IZR (minute dt) + IZR (second dt) / 60) / 60) / 24 in
  let year := if (month0 <=? 2)%Z then (year0 - 1)%Z else year0 in
  let month := if (month0 <=? 2)%Z then (month0 + 12)%Z else month0 in
  let A := (year / 100)%Z in
  let B := (2 - A + A / 4)%Z in
  IZR (int (365.25 * IZR (year + 4716)) + int (30.6001 * IZR (month + 1)))
  + day + IZR B - 1524.5.

Definition sun_ecliptic_longitude (jd : R) : R :=
  let d := jd - 2451545 in
  let L := rem (280.460 + 0.9856474 * d) 360 in
  let g := rem (357.528 + 0.9856003 * d) 360 in
  let lambda_sun := L + 1.915 * sin (radians g) + 0.020 * sin (radians (2 * g)) in
  rem lambda_sun 360.

Definition moon_ecliptic_longitude (jd : R) : R :=
  let d := jd - 2451545 in
  let Lm := rem (218.316 + 13.176396 * d) 360 in
  let Mm := rem (134.963 + 13.064993 * d) 360 in
  let D := rem (297.850 + 12.190749 * d) 360 in
  let lon := Lm + 6.289 * sin (radians Mm) in
  let lon := lon + 1.274 * sin (radians (2 * D - Mm)) in
  let lon := lon + 0.658 * sin (radians (2 * D)) in
  let lon := lon + 0.213 * sin (radians (2 * Mm)) in
  rem lon 360.

Definition moon_phase_illumination (jd : R) : R :=
  let ls := sun_ecliptic_longitude jd in
  let lm := moon_ecliptic_longitude jd in
  let phase_angle := rem (lm - ls) 360 in
  let illum := (1 - cos (radians phase_angle)) * 50 in
  round1 illum.

Definition gmst (jd : R) : R :=
  let d := jd - 2451545 in
  rem (280.46061837 + 360.98564736629 * d) 360.

Definition local_sidereal_time (jd longitude : R) : R :=
  rem (gmst jd + longitude) 360.

Definition obliquity_of_ecliptic (jd : R) : R :=
  let t := (jd - 2451545) / 36525 in
  23 + (26 + (21.448 - t * (46.815 + t * (0.00059 - t * 0.001813))) / 60) / 60.

(** The quadrant adjustment at the end of [approximate_ascendant_longitude]:
    [if cos(lst) > 0: asc += 180  elif sin(lst) < 0: asc += 360]. *)
Definition adjust_quadrant (lst asc : R) : R :=
  if Rlt_dec 0 (cos lst) then asc + 180
  else if Rlt_dec (sin lst) 0 then asc + 360
  else asc.

Definition approximate_ascendant_longitude (jd latitude longitude : R) : result R :=
  let lst_deg := local_sidereal_time jd longitude in
  let lst := radians lst_deg in
  let lat_rad := radians latitude in
  let eps := radians (obliquity_of_ecliptic jd) in
  bind (truediv (- cos lst) (sin lst * sin eps + tan lat_rad * cos eps))
    (fun tan_asc =>
       let asc := rem (degrees (atan tan_asc)) 360 in
       Ok (rem (adjust_quadrant lst asc) 360)).

(** ** Zodiac and house *)

Definition zodiac_from_longitude (lon_deg : R) : result string :=
  let idx := (int (floordiv lon_deg 30) mod 12)%Z in
  getitem ZODIAC idx.

Definition house_from_longitude (planet_lon asc_lon : R) : Z :=
  let diff := rem (planet_lon - asc_lon) 360 in
  let house := (int (floordiv diff 30) + 1)%Z in
  house.

(** The phase label computed in [app]:
    ['Waxing' if 0 < ((moon_lon - sun_lon) % 360) < 180 else 'Waning']. *)
Definition waxing (sun_lon moon_lon : R) : string :=
  let a := rem (moon_lon - sun_lon) 360 in
  if Rlt_dec 0 a then (if Rlt_dec a 180 then "Waxing" else "Waning")
  else "Waning".

(** ** The Gregorian calendar of [datetime] *)

Definition is_leap (y : Z) : bool :=
  ((y mod 4 =? 0) && (negb (y mod 100 =? 0) || (y mod 400 =? 0)))%Z.

Definition days_in_month (y m : Z) : Z :=
  if (m =? 2)%Z then (if is_leap y then 29 else 28)%Z
  else if ((m =? 4) || (m =? 6) || (m =? 9) || (m =? 11))%Z then 30%Z
  else 31%Z.

(** The field ranges [datetime] enforces on construction. *)
Definition valid_datetime (dt : datetime) : bool :=
  ((1 <=? month dt) && (month dt <=? 12)
   && (1 <=? day dt) && (day dt <=? days_in_month (year dt) (month dt))
   && (0 <=? hour dt) && (hour dt <=? 23)
   && (0 <=? minute dt) && (minute dt <=? 59)
   && (0 <=? second dt) && (second dt <=? 59)
   && (0 <=? microsecond dt) && (microsecond dt <=? 999999))%Z.

(** The years the date inputs of [app] are constrained to. *)
Definition supported_year (y : Z) : bool := ((1900 <=? y) && (y <=? 2100))%Z.

Lemma valid_datetime_spec (dt : datetime) :
  valid_datetime dt = true ->
  (1 <= month dt <= 12 /\ 1 <= day dt <= days_in_month (year dt) (month dt)
   /\ 0 <= hour dt <= 23 /\ 0 <= minute dt <= 59 /\ 0 <= second dt <= 59)%Z.
Proof.
  unfold valid_datetime. rewrite !andb_true_iff, !Z.leb_le. tauto.
Qed.

Lemma supported_year_spec (y : Z) :
  supported_year y = true -> (1900 <= y <= 2100)%Z.
Proof.
  unfold supported_year. rewrite andb_true_iff, !Z.leb_le. tauto.
Qed.

(** ** The Julian Day formula as the specification words it *)

Definition adjusted_year (dt : datetime) : Z :=
  if (month dt <=? 2)%Z then (year dt - 1)%Z else year dt.

Definition adjusted_month (dt : datetime) : Z :=
  if (month dt <=? 2)%Z then (month dt + 12)%Z else month dt.

Definition fractional_day (dt : datetime) : R :=
  IZR (day dt)
  + (IZR (hour dt) + (IZR (minute dt) + IZR (second dt) / 60) / 60) / 24.

Definition julian_day_formula (dt : datetime) : R :=
  let centuryTerm := floor (IZR (adjusted_year dt) / 100) in
  let gregorianCorrection := (2 - centuryTerm + floor (IZR centuryTerm / 4))%Z in
  IZR (floor (365.25 * IZR (adjusted_year dt + 4716)))
  + IZR (floor (30.6001 * IZR (adjusted_month dt + 1)))
  + fractional_day dt
  + IZR gregorianCorrection
  - 1524.5.

(** ** Integer form of [to_julian_day] *)

(** The whole-day part of the sum [to_julian_day] computes, with the two
    truncated products written as integer quotients. *)
Definition day_number (y m d : Z) : Z :=
  let y' := if (m <=? 2)%Z then (y - 1)%Z else y in
  let m' := if (m <=? 2)%Z then (m + 12)%Z else m in
  let A := (y' / 100)%Z in
  (1461 * (y' + 4716) / 4 + 306001 * (m' + 1) / 10000 + d + (2 - A + A / 4))%Z.

Definition second_of_day (dt : datetime) : Z :=
  (3600 * hour dt + 60 * minute dt + second dt)%Z.

Lemma floor_365_25 (n : Z) : floor (365.25 * IZR n) = (1461 * n / 4)%Z.
Proof.
  replace (365.25 * IZR n) with (IZR (1461 * n) / IZR 4)
    by (rewrite mult_IZR; lra).
  apply floor_div_IZR. lia.
Qed.

Lemma floor_30_6001 (n : Z) : floor (30.6001 * IZR n) = (306001 * n / 10000)%Z.
Proof.
  replace (30.6001 * IZR n) with (IZR (306001 * n) / IZR 10000)
    by (rewrite mult_IZR; lra).
  apply floor_div_IZR. lia.
Qed.

Lemma int_365_25 (n : Z) : (0 <= n)%Z -> int (365.25 * IZR n) = (1461 * n / 4)%Z.
Proof.
  intros Hn. rewrite int_nonneg, floor_365_25; [reflexivity|].
  apply IZR_le in Hn. lra.
Qed.

Lemma int_30_6001 (n : Z) :
  (0 <= n)%Z -> int (30.6001 * IZR n) = (306001 * n / 10000)%Z.
Proof.
  intros Hn. rewrite int_nonneg, floor_30_6001; [reflexivity|].
  apply IZR_le in Hn. lra.
Qed.

Lemma fractional_day_seconds (dt : datetime) :
  fractional_day dt = IZR (day dt) + IZR (second_of_day dt) / 86400.
Proof.
  unfold fractional_day, second_of_day.
  rewrite !plus_IZR, !mult_IZR. lra.
Qed.

(** [to_julian_day] is the day number plus the fraction of the day elapsed,
    counted from noon. *)
Lemma to_julian_day_split (dt : datetime) :
  (-4715 <= year dt)%Z -> (-1 <= month dt)%Z ->
  to_julian_day dt
  = IZR (day_number (year dt) (month dt) (day dt))
    + IZR (second_of_day dt) / 86400 - 1524.5.
Proof.
  intros Hy Hm. unfold to_julian_day, day_number.
  fold (fractional_day dt). rewrite fractional_day_seconds.
  destruct (month dt <=? 2)%Z eqn:E;
    rewrite int_365_25, int_30_6001 by lia;
    rewrite !plus_IZR; lra.
Qed.

Lemma julian_day_formula_split (dt : datetime) :
  julian_day_formula dt
  = IZR (day_number (year dt) (month dt) (day dt))
    + IZR (second_of_day dt) / 86400 - 1524.5.
Proof.
  unfold julian_day_formula, day_number, adjusted_year, adjusted_month.
  rewrite fractional_day_seconds.
  destruct (month dt <=? 2)%Z eqn:E;
    rewrite floor_365_25, floor_30_6001;
    change 100 with (IZR 100); change 4 with (IZR 4);
    rewrite !floor_div_IZR by lia;
    rewrite !plus_IZR; lra.
Qed.

(** The epoch J2000.0 the specification quotes: 2000-01-01 12:00:00 is Julian
    Day 2451545. *)
Example to_julian_day_J2000 :
  to_julian_day (mk_datetime 2000 1 1 12 0 0) = 2451545.
Proof.
  rewrite to_julian_day_split by (simpl; lia).
  unfold second_of_day. simpl year; simpl month; simpl day.
  replace (day_number 2000 1 1) with 2453069%Z by (vm_compute; reflexivity).
  simpl. lra.
Qed.

(** ** Calendar order *)

(** The lexicographic order of lists of integers. *)
Fixpoint lex_ltb (a b : list Z) : bool :=
  match a, b with
  | x :: a', y :: b' => ((x <? y) || ((x =? y) && lex_ltb a' b'))%Z
  | _, _ => false
  end.

(** All the fields of a datetime, and the ones [to_julian_day] reads: the
    moment to the whole second. *)
Definition fields (dt : datetime) : list Z :=
  [year dt; month dt; day dt; hour dt; minute dt; second dt; microsecond dt].

Definition whole_second (dt : datetime) : list Z :=
  [year dt; month dt; day dt; hour dt; minute dt; second dt].

(** [datetime.__lt__] on naive datetimes: the lexicographic order of all the
    fields, [microsecond] last. *)
Definition datetime_ltb (a b : datetime) : bool := lex_ltb (fields a) (fields b).

(** The same order, to the whole second. *)
Definition whole_second_ltb (a b : datetime) : bool :=
  lex_ltb (whole_second a) (whole_second b).

Definition next_month (y m : Z) : Z * Z :=
  if (m =? 12)%Z then ((y + 1)%Z, 1%Z) else (y, (m + 1)%Z).

(** Months counted from year 0, and the day number on which a month starts
    (its "day 0"). *)
Definition month_index (y m : Z) : Z := (12 * y + (m - 1))%Z.

Definition month_start (k : Z) : Z := day_number (k / 12) (k mod 12 + 1) 0.

Lemma day_number_day (y m d : Z) :
  day_number y m d = (day_number y m 0 + d)%Z.
Proof. unfold day_number. lia. Qed.

Ltac leap_cases y :=
  unfold is_leap;
  destruct (y mod 4 =? 0)%Z eqn:?E4;
  destruct (y mod 100 =? 0)%Z eqn:?E100;
  destruct (y mod 400 =? 0)%Z eqn:?E400;
  simpl negb; simpl orb; simpl andb; cbv iota;
  rewrite ?Z.eqb_eq, ?Z.eqb_neq in *.

(** Decide the comparisons between literals that unfolding leaves behind. *)
Ltac eval_tests :=
  repeat match goal with
         | |- context [(?a <=? ?b)%Z] =>
             let v := eval vm_compute in (a <=? b)%Z in
             change (a <=? b)%Z with v
         | |- context [(?a =? ?b)%Z] =>
             let v := eval vm_compute in (a =? b)%Z in
             change (a =? b)%Z with v
         | |- context [(306001 * (?a + 1) / 10000)%Z] =>
             let v := eval vm_compute in (306001 * (a + 1) / 10000)%Z in
             change (306001 * (a + 1) / 10000)%Z with v
         end;
  simpl orb; cbv iota.

(** The last day of February is followed by the first of March: this is where
    the year shift and the Gregorian correction meet the leap-year rule. *)
Lemma day_number_march (y : Z) :
  day_number y 3 0 = day_number y 2 (days_in_month y 2).
Proof.
  unfold day_number, days_in_month.
  change (3 <=? 2)%Z with false; change (2 <=? 2)%Z with true;
    change (2 =? 2)%Z with true; cbv iota.
  change (306001 * (3 + 1) / 10000)%Z with 122%Z;
    change (306001 * (2 + 12 + 1) / 10000)%Z with 459%Z.
  leap_cases y; Z.to_euclidean_division_equations; lia.
Qed.

(** Every month ends where the next one starts. *)
Lemma day_number_next_month (y m : Z) :
  (1 <= m <= 12)%Z ->
  day_number (fst (next_month y m)) (snd (next_month y m)) 0
  = day_number y m (days_in_month y m).
Proof.
  intros Hm.
  assert (Hc : (m = 1 \/ m = 2 \/ m = 3 \/ m = 4 \/ m = 5 \/ m = 6 \/ m = 7
                \/ m = 8 \/ m = 9 \/ m = 10 \/ m = 11 \/ m = 12)%Z) by lia.
  destruct Hc as [->|[->|[->|[->|[->|[->|[->|[->|[->|[->|[->| ->]]]]]]]]]]];
    try apply day_number_march;
    unfold next_month, day_number, days_in_month;
    eval_tests; simpl fst; simpl snd; eval_tests;
    try (replace (y + 1 - 1)%Z with y by lia); lia.
Qed.

Lemma month_start_index (y m : Z) :
  (1 <= m <= 12)%Z -> month_start (month_index y m) = day_number y m 0.
Proof.
  intros Hm. unfold month_start, month_index.
  replace ((12 * y + (m - 1)) / 12)%Z with y
    by (Z.to_euclidean_division_equations; lia).
  replace ((12 * y + (m - 1)) mod 12 + 1)%Z with m
    by (Z.to_euclidean_division_equations; lia).
  reflexivity.
Qed.

Lemma month_start_succ (k : Z) :
  month_start (k + 1)
  = (month_start k + days_in_month (k / 12) (k mod 12 + 1))%Z.
Proof.
  unfold month_start at 2. rewrite <- day_number_day.
  rewrite <- day_number_next_month
    by (Z.to_euclidean_division_equations; lia).
  unfold month_start, next_month.
  destruct (k mod 12 + 1 =? 12)%Z eqn:E;
    rewrite ?Z.eqb_eq, ?Z.eqb_neq in E; simpl fst; simpl snd; f_equal;
    Z.to_euclidean_division_equations; lia.
Qed.

Lemma days_in_month_pos (y m : Z) : (28 <= days_in_month y m <= 31)%Z.
Proof.
  unfold days_in_month.
  destruct (m =? 2)%Z; [destruct (is_leap y); lia|].
  destruct ((m =? 4) || (m =? 6) || (m =? 9) || (m =? 11))%Z; lia.
Qed.

Lemma month_start_mono (k1 k2 : Z) :
  (k1 <= k2)%Z -> (month_start k1 <= month_start k2)%Z.
Proof.
  intros H. pattern k2. apply Zlt_lower_bound_ind with (z := k1); [|exact H].
  intros x IH Hx.
  destruct (Z.eq_dec x k1) as [->|Hne]; [lia|].
  replace x with (x - 1 + 1)%Z by lia. rewrite month_start_succ.
  pose proof (IH (x - 1)%Z ltac:(lia)).
  pose proof (days_in_month_pos ((x - 1) / 12) ((x - 1) mod 12 + 1)). lia.
Qed.

(** The day number is strictly increasing along valid calendar dates. *)
Lemma day_number_lt (y1 m1 d1 y2 m2 d2 : Z) :
  (1 <= m1 <= 12)%Z -> (d1 <= days_in_month y1 m1)%Z ->
  (1 <= m2 <= 12)%Z -> (1 <= d2)%Z ->
  (y1 < y2 \/ (y1 = y2 /\ (m1 < m2 \/ (m1 = m2 /\ d1 < d2))))%Z ->
  (day_number y1 m1 d1 < day_number y2 m2 d2)%Z.
Proof.
  intros Hm1 Hd1 Hm2 Hd2 Hlt.
  rewrite (day_number_day y1), (day_number_day y2).
  rewrite <- (month_start_index y1 m1), <- (month_start_index y2 m2) by lia.
  assert (Hk : (month_index y1 m1 < month_index y2 m2
                \/ (month_index y1 m1 = month_index y2 m2 /\ d1 < d2))%Z)
    by (unfold month_index; lia).
  destruct Hk as [Hk | [Hk Hd]]; [|rewrite Hk; lia].
  pose proof (month_start_mono (month_index y1 m1 + 1) (month_index y2 m2)
                ltac:(lia)) as Hmono.
  rewrite month_start_succ in Hmono.
  unfold month_index in Hmono at 2 3.
  replace ((12 * y1 + (m1 - 1)) / 12)%Z with y1 in Hmono
    by (Z.to_euclidean_division_equations; lia).
  replace ((12 * y1 + (m1 - 1)) mod 12 + 1)%Z with m1 in Hmono
    by (Z.to_euclidean_division_equations; lia).
  lia.
Qed.

(** What [whole_second_ltb] says about the date and the time of day. *)
Lemma whole_second_ltb_cases (a b : datetime) :
  whole_second_ltb a b = true ->
  (year a < year b
   \/ (year a = year b
       /\ (month a < month b \/ (month a = month b /\ day a < day b)))
   \/ (year a = year b /\ month a = month b /\ day a = day b
       /\ (hour a < hour b
           \/ (hour a = hour b
               /\ (minute a < minute b
                   \/ (minute a = minute b /\ second a < second b))))))%Z.
Proof.
  unfold whole_second_ltb, whole_second, lex_ltb.
  rewrite !orb_true_iff, !andb_true_iff, !orb_true_iff, !andb_true_iff,
    !Z.ltb_lt, !Z.eqb_eq.
  rewrite !orb_true_iff, !andb_true_iff, !Z.ltb_lt, !Z.eqb_eq.
  intuition lia.
Qed.

Lemma lex_ltb_total (a b : list Z) :
  List.length a = List.length b ->
  a = b \/ lex_ltb a b = true \/ lex_ltb b a = true.
Proof.
  revert b. induction a as [|x a IH]; intros [|y b] Hlen; try discriminate.
  - left; reflexivity.
  - injection Hlen as Hlen. simpl.
    destruct (Z.lt_total x y) as [H|[H|H]].
    + right; left. apply Z.ltb_lt in H. rewrite H. reflexivity.
    + subst y. rewrite Z.ltb_irrefl, Z.eqb_refl. simpl.
      destruct (IH b Hlen) as [->|[H|H]]; auto.
    + right; right. apply Z.ltb_lt in H. rewrite H. reflexivity.
Qed.

Lemma fields_inj (a b : datetime) : fields a = fields b -> a = b.
Proof.
  destruct a, b. unfold fields. simpl. intros H.
  injection H as -> -> -> -> -> -> ->. reflexivity.
Qed.

(** A datetime is earlier than another when it is earlier to the whole
    second, or the same to the whole second with fewer microseconds. *)
Lemma datetime_ltb_split (a b : datetime) :
  datetime_ltb a b = true ->
  whole_second_ltb a b = true
  \/ (whole_second a = whole_second b
      /\ (microsecond a < microsecond b)%Z).
Proof.
  unfold datetime_ltb, whole_second_ltb, fields, whole_second, lex_ltb.
  rewrite !orb_true_iff, !andb_true_iff, !orb_true_iff, !andb_true_iff,
    !Z.ltb_lt, !Z.eqb_eq.
  rewrite !orb_true_iff, !andb_true_iff, !Z.ltb_lt, !Z.eqb_eq.
  rewrite !orb_true_iff, !andb_true_iff, !Z.ltb_lt, !Z.eqb_eq.
  intros H.
  assert (Hc : (year a < year b
                \/ (year a = year b /\ month a < month b)
                \/ (year a = year b /\ month a = month b /\ day a < day b)
                \/ (year a = year b /\ month a = month b /\ day a = day b
                    /\ hour a < hour b)
                \/ (year a = year b /\ month a = month b /\ day a = day b
                    /\ hour a = hour b /\ minute a < minute b)
                \/ (year a = year b /\ month a = month b /\ day a = day b
                    /\ hour a = hour b /\ minute a = minute b
                    /\ second a < second b)
                \/ (year a = year b /\ month a = month b /\ day a = day b
                    /\ hour a = hour b /\ minute a = minute b
                    /\ second a = second b
                    /\ microsecond a < microsecond b))%Z)
    by (intuition lia).
  destruct Hc as [Hc|[Hc|[Hc|[Hc|[Hc|[Hc|Hc]]]]]];
    try (left; intuition lia).
  right. destruct Hc as (-> & -> & -> & -> & -> & -> & Hc).
  split; [reflexivity | exact Hc].
Qed.

(** [to_julian_day] reads a datetime to the whole second only. *)
Lemma to_julian_day_whole_second (a b : datetime) :
  whole_second a = whole_second b -> to_julian_day a = to_julian_day b.
Proof.
  unfold whole_second. intros H.
  injection H as Hy Hm Hd Hh Hmi Hs.
  unfold to_julian_day. rewrite Hy, Hm, Hd, Hh, Hmi, Hs. reflexivity.
Qed.

Lemma datetime_ltb_total (a b : datetime) :
  a = b \/ datetime_ltb a b = true \/ datetime_ltb b a = true.
Proof.
  destruct (lex_ltb_total (fields a) (fields b) eq_refl) as [H|H].
  - left. apply fields_inj, H.
  - right. exact H.
Qed.

Lemma whole_second_ltb_total (a b : datetime) :
  whole_second a = whole_second b
  \/ whole_second_ltb a b = true \/ whole_second_ltb b a = true.
Proof. apply (lex_ltb_total (whole_second a) (whole_second b) eq_refl). Qed.

(** [to_julian_day] is strictly increasing along valid moments that differ
    to the whole second. *)
Lemma to_julian_day_increasing (a b : datetime) :
  valid_datetime a = true -> valid_datetime b = true ->
  (-4715 <= year a)%Z -> (-4715 <= year b)%Z ->
  whole_second_ltb a b = true ->
  to_julian_day a < to_julian_day b.
Proof.
  intros Va Vb Ya Yb Hlt.
  apply valid_datetime_spec in Va, Vb.
  rewrite !to_julian_day_split by lia.
  apply whole_second_ltb_cases in Hlt.
  assert (Hsa : (0 <= second_of_day a < 86400)%Z) by (unfold second_of_day; lia).
  assert (Hsb : (0 <= second_of_day b < 86400)%Z) by (unfold second_of_day; lia).
  assert (Hra : 0 <= IZR (second_of_day a) / 86400 < 1).
  { destruct Hsa as [H0 H1]. apply IZR_le in H0. apply IZR_lt in H1. lra. }
  assert (Hrb : 0 <= IZR (second_of_day b) / 86400 < 1).
  { destruct Hsb as [H0 H1]. apply IZR_le in H0. apply IZR_lt in H1. lra. }
  assert (Hcase :
    (day_number (year a) (month a) (day a)
     < day_number (year b) (month b) (day b))%Z
    \/ (day_number (year a) (month a) (day a)
        = day_number (year b) (month b) (day b)
        /\ (second_of_day a < second_of_day b)%Z)).
  { destruct Hlt as [H|[H|H]].
    - left. apply day_number_lt; lia.
    - left. apply day_number_lt; lia.
    - right. destruct H as (-> & -> & -> & H). split; [reflexivity|].
      unfold second_of_day. lia. }
  destruct Hcase as [H | [-> H]].
  - assert (H' : (day_number (year a) (month a) (day a) + 1
                  <= day_number (year b) (month b) (day b))%Z) by lia.
    apply IZR_le in H'. rewrite plus_IZR in H'. lra.
  - apply IZR_lt in H. lra.
Qed.

(** ** Ranges of the longitudes *)

Lemma sun_ecliptic_longitude_range (jd : R) :
  0 <= sun_ecliptic_longitude jd < 360.
Proof. unfold sun_ecliptic_longitude. apply rem_bounds. lra. Qed.

Lemma moon_ecliptic_longitude_range (jd : R) :
  0 <= moon_ecliptic_longitude jd < 360.
Proof. unfold moon_ecliptic_longitude. apply rem_bounds. lra. Qed.

Lemma gmst_range (jd : R) : 0 <= gmst jd < 360.
Proof. unfold gmst. apply rem_bounds. lra. Qed.

Lemma local_sidereal_time_range (jd longitude : R) :
  0 <= local_sidereal_time jd longitude < 360.
Proof. unfold local_sidereal_time. apply rem_bounds. lra. Qed.

(** ** Rounding to one decimal *)

Lemma round_half_even_bounds (x : R) :
  (floor x <= round_half_even x <= floor x + 1)%Z.
Proof.
  unfold round_half_even.
  destruct (Rlt_dec (x - IZR (floor x)) (1 / 2)); [lia|].
  destruct (Rlt_dec (1 / 2) (x - IZR (floor x))); [lia|].
  destruct (Z.even (floor x)); lia.
Qed.

Lemma round_half_even_IZR (n : Z) : round_half_even (IZR n) = n.
Proof.
  unfold round_half_even. rewrite floor_IZR.
  destruct (Rlt_dec (IZR n - IZR n) (1 / 2)) as [|H]; [reflexivity|].
  exfalso. apply H. lra.
Qed.

Lemma round1_range (x : R) : 0 <= x <= 100 -> 0 <= round1 x <= 100.
Proof.
  intros [H0 H1]. unfold round1.
  pose proof (round_half_even_bounds (x * 10)) as [Hlo Hhi].
  pose proof (floor_bounds (x * 10)) as [Hf1 Hf2].
  assert (Hge : (0 <= floor (x * 10))%Z).
  { rewrite <- (floor_IZR 0). apply floor_le. lra. }
  assert (Hle : (round_half_even (x * 10) <= 1000)%Z).
  { destruct (Req_dec x 100) as [->|Hne].
    - replace (100 * 10) with (IZR 1000) by lra.
      rewrite round_half_even_IZR. lia.
    - assert (Hlt : IZR (floor (x * 10)) < IZR 1000) by lra.
      apply lt_IZR in Hlt. lia. }
  assert (Hge' : (0 <= round_half_even (x * 10))%Z) by lia.
  apply IZR_le in Hge', Hle. lra.
Qed.

Lemma round1_0 : round1 0 = 0.
Proof.
  unfold round1. replace (0 * 10) with (IZR 0) by lra.
  rewrite round_half_even_IZR. lra.
Qed.

Lemma round1_100 : round1 100 = 100.
Proof.
  unfold round1. replace (100 * 10) with (IZR 1000) by lra.
  rewrite round_half_even_IZR. lra.
Qed.

(** ** Differences of longitudes, modulo a turn *)

Lemma rem_0_360 : rem 0 360 = 0.
Proof. apply rem_small. lra. Qed.

Lemma rem_360_360 : rem 360 360 = 0.
Proof.
  replace 360 with (0 + IZR 1 * 360) at 1 by lra.
  rewrite rem_add_multiple by lra. apply rem_0_360.
Qed.

(** Reducing one operand of a difference first does not change the reduced
    difference. *)
Lemma rem_minus_rem_l (x y : R) : rem (rem x 360 - y) 360 = rem (x - y) 360.
Proof.
  rewrite (rem_shift x 360).
  replace (x + IZR (- floor (x / 360)) * 360 - y)
    with (x - y + IZR (- floor (x / 360)) * 360) by ring.
  apply rem_add_multiple. lra.
Qed.

Lemma rem_opposition (s : R) : rem (rem (s + 180) 360 - s) 360 = 180.
Proof.
  rewrite rem_minus_rem_l. replace (s + 180 - s) with 180 by ring.
  apply rem_small. lra.
Qed.

Lemma cos_radians_0 : cos (radians 0) = 1.
Proof. unfold radians. rewrite Rmult_0_l. apply cos_0. Qed.

Lemma cos_radians_180 : cos (radians 180) = -1.
Proof.
  unfold radians. replace (180 * (PI / 180)) with PI by (field; lra).
  apply cos_PI.
Qed.

(** ** The ascendant *)

(** The divisor of [tan_asc] in [approximate_ascendant_longitude]. *)
Definition ascendant_divisor (jd latitude longitude : R) : R :=
  let lst := radians (local_sidereal_time jd longitude) in
  let eps := radians (obliquity_of_ecliptic jd) in
  sin lst * sin eps + tan (radians latitude) * cos eps.

(** The ascendant as the specification words it: sidereal time, obliquity,
    [tanAsc], the principal value reduced into a turn, the quadrant
    correction, and a last reduction.  The quotient has no value where its
    divisor vanishes. *)
Definition ascendant_formula (jd latitude longitude : R) : result R :=
  let GMST := rem (280.46061837 + 360.98564736629 * (jd - 2451545)) 360 in
  let LST := radians (rem (GMST + longitude) 360) in
  let t := (jd - 2451545) / 36525 in
  let eps :=
    radians (23 + (26 + (21.448 - t * (46.815 + t * (0.00059 - t * 0.001813)))
                        / 60) / 60) in
  bind (truediv (- cos LST)
          (sin LST * sin eps + tan (radians latitude) * cos eps))
    (fun tanAsc =>
       let asc := rem (degrees (atan tanAsc)) 360 in
       let asc := if Rlt_dec 0 (cos LST) then asc + 180
                  else if Rlt_dec (sin LST) 0 then asc + 360
                  else asc in
       Ok (rem asc 360)).

(** [approximate_ascendant_longitude] with the [elif sin(lst) < 0] branch of
    the quadrant adjustment deleted. *)
Definition adjust_quadrant_without_elif (lst asc : R) : R :=
  if Rlt_dec 0 (cos lst) then asc + 180 else asc.

Definition approximate_ascendant_longitude_without_elif
    (jd latitude longitude : R) : result R :=
  let lst_deg := local_sidereal_time jd longitude in
  let lst := radians lst_deg in
  let lat_rad := radians latitude in
  let eps := radians (obliquity_of_ecliptic jd) in
  bind (truediv (- cos lst) (sin lst * sin eps + tan lat_rad * cos eps))
    (fun tan_asc =>
       let asc := rem (degrees (atan tan_asc)) 360 in
       Ok (rem (adjust_quadrant_without_elif lst asc) 360)).

(** The function raises exactly when the divisor is zero, and otherwise
    returns a longitude reduced into a turn. *)
Lemma ascendant_raises (jd latitude longitude : R) :
  ascendant_divisor jd latitude longitude = 0 ->
  approximate_ascendant_longitude jd latitude longitude
  = Raise ZeroDivisionError.
Proof.
  unfold ascendant_divisor, approximate_ascendant_longitude, truediv.
  intros H. cbv zeta.
  destruct (Req_EM_T _ 0) as [|Hne]; [reflexivity | contradiction].
Qed.

Lemma ascendant_returns (jd latitude longitude : R) :
  ascendant_divisor jd latitude longitude <> 0 ->
  exists v, approximate_ascendant_longitude jd latitude longitude = Ok v
            /\ 0 <= v < 360.
Proof.
  unfold ascendant_divisor, approximate_ascendant_longitude, truediv.
  intros H. cbv zeta.
  destruct (Req_EM_T _ 0) as [He|Hne]; [contradiction|].
  simpl. eexists. split; [reflexivity|]. apply rem_bounds. lra.
Qed.

(** *** Angles at the epoch J2000.0 *)

Lemma gmst_J2000 : gmst 2451545 = 280.46061837.
Proof.
  unfold gmst.
  replace (280.46061837 + 360.98564736629 * (2451545 - 2451545))
    with 280.46061837 by lra.
  apply rem_small. lra.
Qed.

Lemma obliquity_J2000 : 23 < obliquity_of_ecliptic 2451545 < 24.
Proof. unfold obliquity_of_ecliptic. lra. Qed.

Lemma radians_0 : radians 0 = 0.
Proof. unfold radians. ring. Qed.

Lemma radians_90 : radians 90 = PI / 2.
Proof. unfold radians. field. Qed.

Lemma sin_radians_pos (x : R) : 0 < x < 180 -> 0 < sin (radians x).
Proof.
  intros [H0 H1]. pose proof PI_RGT_0. unfold radians.
  apply sin_gt_0; nra.
Qed.

Lemma cos_radians_pos (x : R) : -90 < x < 90 -> 0 < cos (radians x).
Proof.
  intros [H0 H1]. pose proof PI_RGT_0. unfold radians.
  apply cos_gt_0; nra.
Qed.

Lemma tan_radians_pos (x : R) : 0 < x < 90 -> 0 < tan (radians x).
Proof.
  intros [H0 H1]. pose proof PI_RGT_0. unfold radians.
  apply tan_gt_0; nra.
Qed.

(** At the pole the library's tangent is the quotient [sin / cos] with a zero
    divisor, which the library's inverse sends to zero. *)
Lemma tan_radians_90 : tan (radians 90) = 0.
Proof.
  rewrite radians_90. unfold tan. rewrite cos_PI2.
  unfold Rdiv. rewrite Rinv_0. ring.
Qed.

Lemma lst_J2000_east (longitude : R) :
  0 <= 280.46061837 + longitude - 360 < 360 ->
  local_sidereal_time 2451545 longitude = 280.46061837 + longitude - 360.
Proof.
  intros H. unfold local_sidereal_time. rewrite gmst_J2000.
  transitivity (rem (280.46061837 + longitude - 360 + IZR 1 * 360) 360);
    [f_equal; lra|].
  rewrite rem_add_multiple by lra. apply rem_small. exact H.
Qed.

(** ** The binary64 reading *)

(** Python's [float] is an IEEE-754 binary64 number; CPython's float
    operations are those of the C library.  This module writes out the ones
    the arithmetic-only helpers use, on the kernel's primitive floats, so that
    those helpers can be run on concrete inputs. *)
Module F64.

Local Open Scope float_scope.

(** The integer [z] as a float, rounded to nearest-even ([float(z)]). *)
Definition of_Z (z : Z) : float := SF2Prim (binary_normalize prec emax z 0 false).

(** C's [fmod]: the remainder of the magnitudes, with the sign of [x]; it is
    always exact. *)
Definition fmod (x y : float) : float :=
  match Prim2SF x, Prim2SF y with
  | S754_nan, _ | _, S754_nan => nan
  | S754_infinity _, _ => nan
  | _, S754_zero _ => nan
  | S754_zero _, _ => x
  | _, S754_infinity _ => x
  | S754_finite sx mx ex, S754_finite _ my ey =>
      let e := Z.min ex ey in
      let X := (Zpos mx * 2 ^ (ex - e))%Z in
      let Y := (Zpos my * 2 ^ (ey - e))%Z in
      let r := (X mod Y)%Z in
      SF2Prim (binary_normalize prec emax (if sx then (- r)%Z else r) e sx)
  end.

(** The integer part of a finite float, rounded toward minus infinity
    ([None] on a NaN or an infinity). *)
Definition floor_Z (x : float) : option Z :=
  match Prim2SF x with
  | S754_zero _ => Some 0%Z
  | S754_finite s m e =>
      let z := if s then Zneg m else Zpos m in
      Some (if (0 <=? e)%Z then z * 2 ^ e else z / 2 ^ (- e))%Z
  | _ => None
  end.

(** C's [floor]. *)
Definition floor (x : float) : float :=
  match Prim2SF x with
  | S754_finite _ _ e =>
      if (0 <=? e)%Z then x
      else match floor_Z x with
           | Some 0%Z => if get_sign x then neg_zero else zero
           | Some z => of_Z z
           | None => x
           end
  | _ => x
  end.

Definition copysign_zero (y : float) : float :=
  if get_sign y then neg_zero else zero.

(** [x % y] ([float_rem] of CPython's [floatobject.c]), for a divisor that is
    not zero: the C remainder, moved by one divisor when its sign differs
    from the divisor's.  The move is a rounded addition. *)
Definition rem (x y : float) : float :=
  let m := fmod x y in
  if m =? 0 then copysign_zero y
  else if xorb (y <? 0) (m <? 0) then m + y
  else m.

(** [x // y] ([float_floor_div], through [_float_div_mod]), for a divisor
    that is not zero. *)
Definition floordiv (x y : float) : float :=
  let m := fmod x y in
  let div := (x - m) / y in
  let div := if m =? 0 then div
             else if xorb (y <? 0) (m <? 0) then div - 1 else div in
  if div =? 0 then copysign_zero (x / y)
  else
    let fl := floor div in
    if 0.5 <? div - fl then fl + 1 else fl.

(** [int(x)]: truncation toward zero; a NaN raises [ValueError], an infinity
    [OverflowError]. *)
Definition int (x : float) : result Z :=
  match Prim2SF x with
  | S754_nan => Raise ValueError
  | S754_infinity _ => Raise OverflowError
  | S754_zero _ => Ok 0%Z
  | S754_finite s m e =>
      let a := (if (0 <=? e) then Zpos m * 2 ^ e else Zpos m / 2 ^ (- e))%Z in
      Ok (if s then (- a)%Z else a)
  end.

Definition to_julian_day (dt : datetime) : result float :=
  let year0 := year dt in
  let month0 := month dt in
  let day := of_Z (day dt)
             + (of_Z (hour dt) + (of_Z (minute dt) + of_Z (second dt) / 60) / 60) / 24 in
  let year := if (month0 <=? 2)%Z then (year0 - 1)%Z else year0 in
  let month := if (month0 <=? 2)%Z then (month0 + 12)%Z else month0 in
  let A := (year / 100)%Z in
  let B := (2 - A + A / 4)%Z in
  bind (int (365.25 * of_Z (year + 4716))) (fun i1 =>
  bind (int (30.6001 * of_Z (month + 1))) (fun i2 =>
  Ok (of_Z (i1 + i2) + day + of_Z B - 1524.5))).

Definition gmst (jd : float) : float :=
  let d := jd - 2451545 in
  rem (280.46061837 + 360.98564736629 * d) 360.

Definition local_sidereal_time (jd longitude : float) : float :=
  rem (gmst jd + longitude) 360.

Definition zodiac_from_longitude (lon_deg : float) : result string :=
  bind (int (floordiv lon_deg 30)) (fun i =>
  let idx := (i mod 12)%Z in
  getitem ZODIAC idx).

Definition house_from_longitude (planet_lon asc_lon : float) : result Z :=
  let diff := rem (planet_lon - asc_lon) 360 in
  bind (int (floordiv diff 30)) (fun i =>
  let house := (i + 1)%Z in
  Ok house).

Definition waxing (sun_lon moon_lon : float) : string :=
  let a := rem (moon_lon - sun_lon) 360 in
  if (0 <? a) && (a <? 180) then "Waxing" else "Waning".

(** [math.pi], and [math.radians] and [math.degrees] as CPython computes
    them: one multiplication by the rounded constant [pi / 180] or
    [180 / pi]. *)
Definition pi : float := 3.141592653589793.

Definition radians (x : float) : float := x * (pi / 180).

Definition degrees (x : float) : float := x * (180 / pi).

(** [x / y] on floats: a zero divisor, of either sign, raises. *)
Definition truediv (x y : float) : result float :=
  if y =? 0 then Raise ZeroDivisionError else Ok (x / y).

Definition obliquity_of_ecliptic (jd : float) : float :=
  let t := (jd - 2451545) / 36525 in
  23 + (26 + (21.448 - t * (46.815 + t * (0.00059 - t * 0.001813))) / 60) / 60.

(** [math.sin], [math.cos], [math.tan] and [math.atan] are the C library's
    functions; a call returns a float or raises.  IEEE-754 fixes none of
    their values, so the ascendant is modelled over any four such
    functions, called in the order the source calls them. *)
Section Libm.

Variables sin cos tan atan : float -> result float.

(** Lines 222-225: [math.cos(lst)] and [math.sin(lst)] are called again. *)
Definition adjust_quadrant (lst asc : float) : result float :=
  bind (cos lst) (fun c =>
  if 0 <? c then Ok (asc + 180)
  else
    bind (sin lst) (fun s =>
    if s <? 0 then Ok (asc + 360) else Ok asc)).

Definition approximate_ascendant_longitude
    (jd latitude longitude : float) : result float :=
  let lst_deg := local_sidereal_time jd longitude in
  let lst := radians lst_deg in
  let lat_rad := radians latitude in
  let eps := radians (obliquity_of_ecliptic jd) in
  bind (cos lst) (fun c =>
  bind (sin lst) (fun s =>
  bind (sin eps) (fun se =>
  bind (tan lat_rad) (fun tl =>
  bind (cos eps) (fun ce =>
  bind (truediv (- c) (s * se + tl * ce)) (fun tan_asc =>
  bind (atan tan_asc) (fun a =>
  let asc := rem (degrees a) 360 in
  bind (adjust_quadrant lst asc) (fun asc =>
  Ok (rem asc 360))))))))).

(** The same with the [elif math.sin(lst) < 0] branch deleted. *)
Definition adjust_quadrant_without_elif (lst asc : float) : result float :=
  bind (cos lst) (fun c =>
  if 0 <? c then Ok (asc + 180) else Ok asc).

Definition approximate_ascendant_longitude_without_elif
    (jd latitude longitude : float) : result float :=
  let lst_deg := local_sidereal_time jd longitude in
  let lst := radians lst_deg in
  let lat_rad := radians latitude in
  let eps := radians (obliquity_of_ecliptic jd) in
  bind (cos lst) (fun c =>
  bind (sin lst) (fun s =>
  bind (sin eps) (fun se =>
  bind (tan lat_rad) (fun tl =>
  bind (cos eps) (fun ce =>
  bind (truediv (- c) (s * se + tl * ce)) (fun tan_asc =>
  bind (atan tan_asc) (fun a =>
  let asc := rem (degrees a) 360 in
  bind (adjust_quadrant_without_elif lst asc) (fun asc =>
  Ok (rem asc 360))))))))).

(** Whether a call that reaches the quadrant adjustment executes the [elif]
    branch's [asc += 360]. *)
Definition elif_taken (jd longitude : float) : result bool :=
  let lst := radians (local_sidereal_time jd longitude) in
  bind (cos lst) (fun c =>
  if 0 <? c then Ok false
  else bind (sin lst) (fun s => Ok (s <? 0))).

End Libm.

(** The values CPython's [math] functions return (glibc, x86-64) at the
    arguments that the calls [approximate_ascendant_longitude(2451545.0,
    10.0, 349.53938163)] and [approximate_ascendant_longitude(2451545.0,
    10.0, 79.53938163)] pass to them.  The tables have no other entry; a
    lookup outside them is marked by [ValueError]. *)
Definition libm_sin (x : float) : result float :=
  if x =? 4.71238898038469 then Ok (-1)
  else if x =? 0.4090928042223289 then Ok 0.39777715593191365
  else if x =? 0 then Ok 0
  else Raise ValueError.

Definition libm_cos (x : float) : result float :=
  if x =? 4.71238898038469 then Ok (-1.8369701987210297e-16)
  else if x =? 0.4090928042223289 then Ok 0.9174820620691818
  else if x =? 0 then Ok 1
  else Raise ValueError.

Definition libm_tan (x : float) : result float :=
  if x =? 0.17453292519943295 then Ok 0.17632698070846498
  else Raise ValueError.

Definition libm_atan (x : float) : result float :=
  if x =? -7.7837616697078e-16 then Ok (-7.7837616697078e-16)
  else if x =? -6.18135444177226 then Ok (-1.4104090563388838)
  else Raise ValueError.

End F64.

(** ** Sign and house lookup *)

(** The index the specification gives for a sign, and the sign found there. *)
Definition sign_index (lon : R) : Z := (floor (lon / 30) mod 12)%Z.

Definition zodiac_sign (lon : R) : option string :=
  nth_error ZODIAC (Z.to_nat (sign_index lon)).

Lemma zodiac_index (lon_deg : R) :
  (int (floordiv lon_deg 30) mod 12)%Z = sign_index lon_deg.
Proof. unfold floordiv, sign_index. rewrite int_IZR. reflexivity. Qed.

(** Indexing [ZODIAC] below twelve never raises. *)
Lemma getitem_ZODIAC (i : Z) :
  (0 <= i < 12)%Z ->
  exists s, nth_error ZODIAC (Z.to_nat i) = Some s /\ getitem ZODIAC i = Ok s.
Proof.
  intros Hi.
  assert (Hc : (i = 0 \/ i = 1 \/ i = 2 \/ i = 3 \/ i = 4 \/ i = 5 \/ i = 6
                \/ i = 7 \/ i = 8 \/ i = 9 \/ i = 10 \/ i = 11)%Z) by lia.
  destruct Hc as [->|[->|[->|[->|[->|[->|[->|[->|[->|[->|[->| ->]]]]]]]]]]];
    eexists; split; reflexivity.
Qed.

Lemma floor_div_30 (x : R) (n : Z) :
  30 * IZR n <= x < 30 * IZR n + 30 -> floor (x / 30) = n.
Proof. intros H. apply floor_unique. lra. Qed.

Lemma zodiac_from_longitude_at (lon : R) (n : Z) :
  30 * IZR n <= lon < 30 * IZR n + 30 ->
  zodiac_from_longitude lon = getitem ZODIAC (n mod 12).
Proof.
  intros H. unfold zodiac_from_longitude.
  rewrite zodiac_index. unfold sign_index.
  rewrite (floor_div_30 lon n H). reflexivity.
Qed.

Lemma house_index_range (x : R) :
  0 <= x < 360 -> (0 <= floor (x / 30) <= 11)%Z.
Proof.
  intros [H0 H1]. split.
  - rewrite <- (floor_IZR 0). apply floor_le. lra.
  - pose proof (floor_bounds (x / 30)) as [Hf _].
    assert (Hlt : IZR (floor (x / 30)) < IZR 12) by lra.
    apply lt_IZR in Hlt. lia.
Qed.

Lemma house_from_longitude_eq (planet_lon asc_lon : R) :
  house_from_longitude planet_lon asc_lon
  = (floor (rem (planet_lon - asc_lon) 360 / 30) + 1)%Z.
Proof. unfold house_from_longitude, floordiv. rewrite int_IZR. reflexivity. Qed.

(** On exact reals the house number behaves as the specification says:
    it lies in 1..12, a planet on the ascendant is in house 1, and one a
    thousandth of a degree behind it is in house 12. *)
Lemma house_from_longitude_exact (planet_lon asc_lon : R) :
  house_from_longitude planet_lon asc_lon
  = (floor (rem (planet_lon - asc_lon) 360 / 30) + 1)%Z
  /\ (1 <= house_from_longitude planet_lon asc_lon <= 12)%Z
  /\ house_from_longitude asc_lon asc_lon = 1%Z
  /\ house_from_longitude (rem (asc_lon - 0.001) 360) asc_lon = 12%Z.
Proof.
  repeat split.
  - apply house_from_longitude_eq.
  - rewrite house_from_longitude_eq.
    pose proof (house_index_range (rem (planet_lon - asc_lon) 360)
                  (rem_bounds _ 360 ltac:(lra))). lia.
  - rewrite house_from_longitude_eq.
    pose proof (house_index_range (rem (planet_lon - asc_lon) 360)
                  (rem_bounds _ 360 ltac:(lra))). lia.
  - rewrite house_from_longitude_eq.
    replace (asc_lon - asc_lon) with 0 by ring.
    rewrite rem_0_360, (floor_div_30 0 0) by lra. reflexivity.
  - rewrite house_from_longitude_eq, rem_minus_rem_l.
    replace (asc_lon - 0.001 - asc_lon) with (359.999 + IZR (-1) * 360) by lra.
    rewrite rem_add_multiple by lra.
    rewrite rem_small by lra.
    rewrite (floor_div_30 359.999 11) by lra. reflexivity.
Qed.

(** ** The divisor of the ascendant on the meridian of the epoch *)

(** At J2000.0 and longitude 169.53938163 the sidereal time is a quarter
    turn, and the divisor is positive for every northern latitude. *)
Lemma lst_quarter_turn : local_sidereal_time 2451545 169.53938163 = 90.
Proof. rewrite lst_J2000_east; lra. Qed.

Lemma ascendant_divisor_quarter_turn (latitude : R) :
  0 <= latitude <= 90 -> 0 < ascendant_divisor 2451545 latitude 169.53938163.
Proof.
  intros [H0 H1]. unfold ascendant_divisor.
  rewrite lst_quarter_turn, radians_90, sin_PI2.
  pose proof obliquity_J2000 as [He0 He1].
  pose proof (sin_radians_pos (obliquity_of_ecliptic 2451545) ltac:(lra)) as Hs.
  pose proof (cos_radians_pos (obliquity_of_ecliptic 2451545) ltac:(lra)) as Hc.
  assert (Ht : 0 <= tan (radians latitude)).
  { destruct (Req_dec latitude 0) as [->|Hn0].
    - rewrite radians_0, tan_0. lra.
    - destruct (Req_dec latitude 90) as [->|Hn90].
      + rewrite tan_radians_90. lra.
      + left. apply tan_radians_pos. lra. }
  nra.
Qed.

(** * The properties of the specification *)

(** ** Time converter *)

(** C1: for every calendar-valid moment with a year in 1900-2100,
    [to_julian_day] returns
    floor(365.25*(Y+4716)) + floor(30.6001*(M+1)) + fractionalDay
    + (2 - floor(Y/100) + floor(floor(Y/100)/4)) - 1524.5,
    with Y = year-1 and M = month+12 exactly when month <= 2.  The source
    truncates toward zero and divides integers; on the supported range both
    agree with the floors of the formula. *)
Theorem to_julian_day_is_formula (dt : datetime) :
  valid_datetime dt = true ->
  supported_year (year dt) = true ->
  to_julian_day dt = julian_day_formula dt.
Proof.
  intros Hv Hy.
  apply valid_datetime_spec in Hv. apply supported_year_spec in Hy.
  rewrite to_julian_day_split by lia.
  symmetry. apply julian_day_formula_split.
Qed.

Lemma to_julian_day_is_formula_witness :
  to_julian_day (mk_datetime 1993 7 12 12 26 0)
  = julian_day_formula (mk_datetime 1993 7 12 12 26 0).
Proof.
  apply to_julian_day_is_formula; reflexivity.
Defined.

(** C9, as the code has it: [to_julian_day] reads a datetime to the whole
    second and never its microsecond.  Between calendar-valid datetimes with
    years in 1900-2100 it is monotone for the order of datetimes, strictly so
    when the two differ to the whole second, and two datetimes have the same
    Julian Day exactly when they are the same to the whole second. *)
Theorem to_julian_day_monotone_to_the_second (a b : datetime) :
  valid_datetime a = true -> valid_datetime b = true ->
  supported_year (year a) = true -> supported_year (year b) = true ->
  (datetime_ltb a b = true -> to_julian_day a <= to_julian_day b)
  /\ (whole_second_ltb a b = true -> to_julian_day a < to_julian_day b)
  /\ (to_julian_day a = to_julian_day b
      <-> whole_second a = whole_second b).
Proof.
  intros Va Vb Ya Yb.
  apply supported_year_spec in Ya, Yb.
  assert (Hinc : whole_second_ltb a b = true ->
                 to_julian_day a < to_julian_day b).
  { intros Hlt. apply to_julian_day_increasing; auto; lia. }
  split; [|split; [exact Hinc|split]].
  - intros Hlt. destruct (datetime_ltb_split a b Hlt) as [H|[H _]].
    + left. apply Hinc, H.
    + right. apply to_julian_day_whole_second, H.
  - intros Heq.
    destruct (whole_second_ltb_total a b) as [H|[H|H]]; [exact H| |];
      apply to_julian_day_increasing in H; auto; try lia; lra.
  - apply to_julian_day_whole_second.
Qed.

Lemma to_julian_day_monotone_to_the_second_witness :
  to_julian_day (mk_datetime 1999 12 31 23 59 59)
  < to_julian_day (mk_datetime 2000 1 1 0 0 0).
Proof.
  apply (proj1 (proj2 (to_julian_day_monotone_to_the_second
                         (mk_datetime 1999 12 31 23 59 59)
                         (mk_datetime 2000 1 1 0 0 0)
                         eq_refl eq_refl eq_refl eq_refl))).
  reflexivity.
Defined.

(** C9 as stated fails: noon of 2000-01-01 and the instant 999999
    microseconds later are two valid datetimes, the first earlier than the
    second, with the same Julian Day. *)
Lemma to_julian_day_ignores_microsecond :
  let a := Build_datetime 2000 1 1 12 0 0 0 in
  let b := Build_datetime 2000 1 1 12 0 0 999999 in
  valid_datetime a = true /\ valid_datetime b = true
  /\ supported_year (year a) = true /\ supported_year (year b) = true
  /\ datetime_ltb a b = true /\ a <> b
  /\ to_julian_day a = to_julian_day b
  /\ ~ to_julian_day a < to_julian_day b.
Proof.
  cbv zeta. repeat split; try reflexivity.
  - discriminate.
  - apply Rlt_irrefl.
Qed.

(** ** Ascendant *)

(** C2: the Sun's and the Moon's longitudes lie in [0, 360) for every Julian
    Day ([sun_ecliptic_longitude_range], [moon_ecliptic_longitude_range]),
    but the ascendant does not always return: on the equator, at the epoch
    J2000.0 and longitude 79.53938163, the local sidereal time is exactly
    zero, the divisor of [tan_asc] vanishes, and the call raises
    [ZeroDivisionError].  The binary64 sum of the sidereal time is exactly
    zero as well. *)
Theorem ascendant_zero_division :
  approximate_ascendant_longitude 2451545 0 79.53938163
  = Raise ZeroDivisionError
  /\ F64.local_sidereal_time 2451545 79.53938163 = 0%float.
Proof.
  split.
  - apply ascendant_raises. unfold ascendant_divisor.
    rewrite lst_J2000_east by lra.
    replace (280.46061837 + 79.53938163 - 360) with 0 by lra.
    rewrite radians_0, sin_0, tan_0. ring.
  - vm_compute. reflexivity.
Qed.

(** C3, as the code has it: there is no latitude guard.  Wherever the divisor
    of [tan_asc] is not zero -- the poles included -- the function returns a
    longitude in [0, 360). *)
Theorem ascendant_returns_without_guard (jd latitude longitude : R) :
  ascendant_divisor jd latitude longitude <> 0 ->
  exists v,
    approximate_ascendant_longitude jd latitude longitude = Ok v
    /\ 0 <= v < 360.
Proof. apply ascendant_returns. Qed.

Lemma ascendant_returns_without_guard_witness :
  exists v,
    approximate_ascendant_longitude 2451545 (-90) 169.53938163 = Ok v
    /\ 0 <= v < 360.
Proof.
  apply ascendant_returns_without_guard.
  unfold ascendant_divisor.
  rewrite lst_quarter_turn, radians_90, sin_PI2.
  replace (radians (-90)) with (- (PI / 2)) by (unfold radians; field).
  rewrite tan_neg. unfold tan. rewrite cos_PI2.
  unfold Rdiv. rewrite Rinv_0.
  pose proof obliquity_J2000 as [He0 He1].
  pose proof (sin_radians_pos (obliquity_of_ecliptic 2451545) ltac:(lra)).
  lra.
Defined.

(** C3 as stated fails: at latitude 90, and a millionth of a degree from it,
    the function returns a numeric longitude. *)
Lemma ascendant_at_pole_returns_number :
  (exists v,
      approximate_ascendant_longitude 2451545 90 169.53938163 = Ok v
      /\ 0 <= v < 360)
  /\ (exists v,
         approximate_ascendant_longitude 2451545 89.999999 169.53938163 = Ok v
         /\ 0 <= v < 360).
Proof.
  split; apply ascendant_returns;
    apply Rgt_not_eq, Rlt_gt, ascendant_divisor_quarter_turn; lra.
Qed.

(** C4: [approximate_ascendant_longitude] computes the specification's
    formula, step for step; where the quotient [tanAsc] has no value the
    source raises. *)
Theorem approximate_ascendant_longitude_is_formula
    (jd latitude longitude : R) :
  approximate_ascendant_longitude jd latitude longitude
  = ascendant_formula jd latitude longitude.
Proof.
  unfold approximate_ascendant_longitude, ascendant_formula,
    local_sidereal_time, gmst, obliquity_of_ecliptic, adjust_quadrant.
  reflexivity.
Qed.

(** On exact reals, deleting the branch [elif sin(lst) < 0: asc += 360]
    never changes the result: a whole turn added before the last reduction
    is removed by it. *)
Lemma elif_branch_redundant_on_reals (jd latitude longitude : R) :
  approximate_ascendant_longitude_without_elif jd latitude longitude
  = approximate_ascendant_longitude jd latitude longitude.
Proof.
  unfold approximate_ascendant_longitude_without_elif,
    approximate_ascendant_longitude. cbv zeta.
  destruct (truediv _ _) as [tan_asc|e]; [|reflexivity].
  simpl. f_equal.
  unfold adjust_quadrant_without_elif, adjust_quadrant.
  destruct (Rlt_dec 0 _); [reflexivity|].
  destruct (Rlt_dec _ 0); [|reflexivity].
  symmetry.
  replace (rem (degrees (atan tan_asc)) 360 + 360)
    with (rem (degrees (atan tan_asc)) 360 + IZR 1 * 360) by lra.
  apply rem_add_multiple. lra.
Qed.

(** On binary64, over any [sin], [cos], [tan] and [atan], deleting the
    branch changes nothing in a call that does not execute it. *)
Lemma F64_elif_branch_not_taken
    (sin cos tan atan : float -> result float)
    (jd latitude longitude : float) :
  F64.elif_taken sin cos jd longitude <> Ok true ->
  F64.approximate_ascendant_longitude_without_elif
    sin cos tan atan jd latitude longitude
  = F64.approximate_ascendant_longitude
      sin cos tan atan jd latitude longitude.
Proof.
  unfold F64.elif_taken, F64.approximate_ascendant_longitude_without_elif,
    F64.approximate_ascendant_longitude, F64.adjust_quadrant_without_elif,
    F64.adjust_quadrant.
  cbv zeta. intros Hnot.
  destruct (cos (F64.radians (F64.local_sidereal_time jd longitude)))
    as [c|e]; [|reflexivity].
  simpl in *.
  destruct (sin (F64.radians (F64.local_sidereal_time jd longitude)))
    as [s|e]; [|reflexivity].
  simpl in *.
  destruct (sin _) as [se|e]; [|reflexivity]. simpl.
  destruct (tan _) as [tl|e]; [|reflexivity]. simpl.
  destruct (cos _) as [ce|e]; [|reflexivity]. simpl.
  destruct (F64.truediv _ _) as [tan_asc|e]; [|reflexivity]. simpl.
  destruct (atan _) as [a|e]; [|reflexivity]. simpl.
  destruct (PrimFloat.ltb 0 c); [reflexivity|].
  simpl in *.
  destruct (PrimFloat.ltb s 0); [|reflexivity].
  exfalso. apply Hnot. reflexivity.
Qed.

(** C10: the branch [elif sin(lst) < 0: asc += 360] is redundant on exact
    reals -- for every Julian Day, latitude and longitude the function with
    the branch deleted returns what the original returns -- and, on binary64,
    in every call that does not execute it.  A binary64 call that executes
    it can return another value: [asc + 360] is rounded before the last
    reduction. *)
Theorem elif_branch_redundant_unless_rounded :
  (forall jd latitude longitude : R,
     approximate_ascendant_longitude_without_elif jd latitude longitude
     = approximate_ascendant_longitude jd latitude longitude)
  /\ (forall (sin cos tan atan : float -> result float)
             (jd latitude longitude : float),
        F64.elif_taken sin cos jd longitude <> Ok true ->
        F64.approximate_ascendant_longitude_without_elif
          sin cos tan atan jd latitude longitude
        = F64.approximate_ascendant_longitude
            sin cos tan atan jd latitude longitude).
Proof.
  split.
  - exact elif_branch_redundant_on_reals.
  - exact F64_elif_branch_not_taken.
Qed.

(** The binary64 half at J2000.0, latitude 10.0 and longitude 79.53938163,
    where the local sidereal time is 0.0 and [cos(lst) = 1.0 > 0]: the
    branch is not executed and both functions return 99.1895136847528. *)
Lemma elif_branch_redundant_unless_rounded_witness :
  F64.elif_taken F64.libm_sin F64.libm_cos 2451545 79.53938163 <> Ok true
  /\ F64.approximate_ascendant_longitude_without_elif
       F64.libm_sin F64.libm_cos F64.libm_tan F64.libm_atan
       2451545 10 79.53938163
     = F64.approximate_ascendant_longitude
         F64.libm_sin F64.libm_cos F64.libm_tan F64.libm_atan
         2451545 10 79.53938163.
Proof.
  assert (H : F64.elif_taken F64.libm_sin F64.libm_cos 2451545 79.53938163
              <> Ok true).
  { vm_compute. discriminate. }
  split; [exact H|].
  exact (proj2 elif_branch_redundant_unless_rounded
           F64.libm_sin F64.libm_cos F64.libm_tan F64.libm_atan
           2451545%float 10%float 79.53938163%float H).
Defined.

(** The call [approximate_ascendant_longitude(2451545.0, 10.0, 349.53938163)]
    on binary64: the local sidereal time is 270.0, so [cos(lst)] is not
    positive and [sin(lst) = -1.0 < 0], and the branch is executed with
    [asc = 359.99999999999994].  The sum [asc + 360] rounds to 720.0 and the
    function returns 0.0; with the branch deleted it returns
    359.99999999999994. *)
Lemma elif_branch_changes_binary64_result :
  F64.local_sidereal_time 2451545 349.53938163 = 270%float
  /\ F64.elif_taken F64.libm_sin F64.libm_cos 2451545 349.53938163 = Ok true
  /\ F64.approximate_ascendant_longitude
       F64.libm_sin F64.libm_cos F64.libm_tan F64.libm_atan
       2451545 10 349.53938163
     = Ok 0%float
  /\ F64.approximate_ascendant_longitude_without_elif
       F64.libm_sin F64.libm_cos F64.libm_tan F64.libm_atan
       2451545 10 349.53938163
     = Ok 359.99999999999994%float
  /\ F64.approximate_ascendant_longitude_without_elif
       F64.libm_sin F64.libm_cos F64.libm_tan F64.libm_atan
       2451545 10 349.53938163
     <> F64.approximate_ascendant_longitude
          F64.libm_sin F64.libm_cos F64.libm_tan F64.libm_atan
          2451545 10 349.53938163.
Proof.
  repeat split; try (vm_compute; reflexivity).
  intros H.
  apply (f_equal (fun r => match r with
                           | Ok x => PrimFloat.ltb x 1
                           | Raise _ => false
                           end)) in H.
  vm_compute in H. discriminate H.
Qed.

(** ** Illumination *)

(** C5: for every Julian Day the illumination percent -- (1 - cos(phase))*50
    rounded to one decimal, with the phase angle reduced into [0, 360) -- lies
    in [0, 100]; it is 0 when the Moon's longitude equals the Sun's and 100
    when it equals the Sun's plus 180 modulo 360.  The last two conjuncts say
    the same of any pair of longitudes in that position. *)
Theorem moon_phase_illumination_range (jd : R) :
  0 <= moon_phase_illumination jd <= 100
  /\ (moon_ecliptic_longitude jd = sun_ecliptic_longitude jd ->
      moon_phase_illumination jd = 0)
  /\ (moon_ecliptic_longitude jd = rem (sun_ecliptic_longitude jd + 180) 360 ->
      moon_phase_illumination jd = 100)
  /\ (forall s, round1 ((1 - cos (radians (rem (s - s) 360))) * 50) = 0)
  /\ (forall s,
         round1 ((1 - cos (radians (rem (rem (s + 180) 360 - s) 360))) * 50)
         = 100).
Proof.
  assert (Hnew : forall s,
             round1 ((1 - cos (radians (rem (s - s) 360))) * 50) = 0).
  { intros s. replace (s - s) with 0 by ring.
    rewrite rem_0_360, cos_radians_0.
    replace ((1 - 1) * 50) with 0 by ring. apply round1_0. }
  assert (Hfull : forall s,
             round1 ((1 - cos (radians (rem (rem (s + 180) 360 - s) 360))) * 50)
             = 100).
  { intros s. rewrite rem_opposition, cos_radians_180.
    replace ((1 - -1) * 50) with 100 by ring. apply round1_100. }
  unfold moon_phase_illumination.
  repeat split.
  - apply round1_range.
    pose proof (COS_bound (radians (rem (moon_ecliptic_longitude jd
                                         - sun_ecliptic_longitude jd) 360))).
    lra.
  - apply round1_range.
    pose proof (COS_bound (radians (rem (moon_ecliptic_longitude jd
                                         - sun_ecliptic_longitude jd) 360))).
    lra.
  - intros ->. apply Hnew.
  - intros ->. apply Hfull.
  - exact Hnew.
  - exact Hfull.
Qed.

(** C6: the phase label is [Waxing] exactly when the phase angle
    (moonLon - sunLon) mod 360 lies strictly between 0 and 180, and [Waning]
    otherwise; in particular it is [Waning] when the two longitudes are
    equal. *)
Theorem waxing_iff (sun_lon moon_lon : R) :
  (waxing sun_lon moon_lon = "Waxing"
   <-> 0 < rem (moon_lon - sun_lon) 360 < 180)
  /\ (waxing sun_lon moon_lon = "Waning"
      <-> (rem (moon_lon - sun_lon) 360 = 0
           \/ 180 <= rem (moon_lon - sun_lon) 360))
  /\ waxing sun_lon sun_lon = "Waning".
Proof.
  pose proof (rem_bounds (moon_lon - sun_lon) 360 ltac:(lra)) as [Hb0 Hb1].
  unfold waxing.
  repeat split.
  - destruct (Rlt_dec 0 _); [exact r | discriminate].
  - destruct (Rlt_dec 0 _); [|discriminate].
    destruct (Rlt_dec _ 180); [assumption | discriminate].
  - intros [H0 H1].
    destruct (Rlt_dec 0 _); [|contradiction].
    destruct (Rlt_dec _ 180); [reflexivity | contradiction].
  - destruct (Rlt_dec 0 _) as [H0|H0].
    + destruct (Rlt_dec _ 180) as [H1|H1]; [discriminate|].
      intros _. right. lra.
    + intros _. left. lra.
  - intros [H|H].
    + destruct (Rlt_dec 0 _) as [H0|H0]; [lra | reflexivity].
    + destruct (Rlt_dec 0 _) as [H0|H0]; [|reflexivity].
      destruct (Rlt_dec _ 180) as [H1|H1]; [lra | reflexivity].
  - replace (sun_lon - sun_lon) with 0 by ring. rewrite rem_0_360.
    destruct (Rlt_dec 0 0) as [H|H]; [lra | reflexivity].
Qed.

(** ** Sign and house *)

(** C7: for every longitude in [0, 360) [zodiac_from_longitude] returns the
    sign at index floor(lon/30) mod 12 of the twelve signs in order from
    Aries; and 0.0 and 29.999 are in Aries, 30.0 in Taurus, 359.999 in
    Pisces. *)
Theorem zodiac_from_longitude_sign :
  (forall lon, 0 <= lon < 360 ->
     exists s, zodiac_sign lon = Some s /\ zodiac_from_longitude lon = Ok s)
  /\ zodiac_from_longitude 0 = Ok "Aries"
  /\ zodiac_from_longitude 29.999 = Ok "Aries"
  /\ zodiac_from_longitude 30 = Ok "Taurus"
  /\ zodiac_from_longitude 359.999 = Ok "Pisces".
Proof.
  split; [|repeat split].
  - intros lon Hlon. unfold zodiac_from_longitude, zodiac_sign.
    rewrite zodiac_index. apply getitem_ZODIAC.
    unfold sign_index. apply Z.mod_pos_bound. lia.
  - rewrite (zodiac_from_longitude_at 0 0) by lra. reflexivity.
  - rewrite (zodiac_from_longitude_at 29.999 0) by lra. reflexivity.
  - rewrite (zodiac_from_longitude_at 30 1) by lra. reflexivity.
  - rewrite (zodiac_from_longitude_at 359.999 11) by lra. reflexivity.
Qed.

Lemma zodiac_from_longitude_sign_witness :
  exists s, zodiac_sign 123.456 = Some s
            /\ zodiac_from_longitude 123.456 = Ok s.
Proof.
  apply (proj1 zodiac_from_longitude_sign). lra.
Defined.

(** C8: on binary64 floats the house number leaves 1..12.  For a planet at
    longitude 0.0 and an ascendant at 1e-20 the difference is a tiny negative
    number, [%] adds the divisor to it, the sum rounds to 360.0 itself, and
    the house is 13.  (On exact reals the property holds:
    [house_from_longitude_exact].) *)
Theorem house_thirteen :
  F64.rem (0 - 1e-20) 360 = 360%float
  /\ F64.house_from_longitude 0 1e-20 = Ok 13%Z.
Proof. split; vm_compute; reflexivity. Qed.

(** ** Binary64 evaluations *)

(** The boundary longitudes of C7, run on binary64 floats. *)
Example F64_zodiac_from_longitude_boundaries :
  F64.zodiac_from_longitude 0 = Ok "Aries"
  /\ F64.zodiac_from_longitude 29.999 = Ok "Aries"
  /\ F64.zodiac_from_longitude 30 = Ok "Taurus"
  /\ F64.zodiac_from_longitude 359.999 = Ok "Pisces".
Proof. repeat split; vm_compute; reflexivity. Qed.

(** The house wrap-around of C8 for an ascendant inside the first turn. *)
Example F64_house_wraparound :
  F64.house_from_longitude 75.77 75.77 = Ok 1%Z
  /\ F64.house_from_longitude (F64.rem (75.77 - 0.001) 360) 75.77 = Ok 12%Z.
Proof. split; vm_compute; reflexivity. Qed.

(** The epoch, and the default birth moment of [app], as Julian Days. *)
Example F64_to_julian_day_J2000 :
  F64.to_julian_day (mk_datetime 2000 1 1 12 0 0) = Ok 2451545%float.
Proof. vm_compute. reflexivity. Qed.

Example F64_to_julian_day_default :
  F64.to_julian_day (mk_datetime 1993 7 12 12 26 0)
  = Ok 2449181.0180555554%float.
Proof. vm_compute. reflexivity. Qed.

(** The phase label at equal longitudes, and one degree either side. *)
Example F64_waxing_boundary :
  F64.waxing 100 100 = "Waning"
  /\ F64.waxing 100 101 = "Waxing"
  /\ F64.waxing 100 99 = "Waning".
Proof. repeat split; vm_compute; reflexivity. Qed.

(** * Further properties of the code *)

(** ** Signs and houses over the whole line *)

Lemma sign_index_step (lon : R) (k : Z) :
  sign_index (lon + 30 * IZR k) = ((sign_index lon + k) mod 12)%Z.
Proof.
  unfold sign_index.
  replace ((lon + 30 * IZR k) / 30) with (lon / 30 + IZR k) by field.
  rewrite floor_add_IZR. rewrite Zplus_mod_idemp_l. reflexivity.
Qed.

(** [zodiac_from_longitude] accepts every real longitude, reduced or not,
    negative or not: the index is brought into 0..11 by [% 12], the lookup
    never raises, and the result is one of the twelve labels. *)
Theorem zodiac_from_longitude_total (lon_deg : R) :
  exists s, zodiac_from_longitude lon_deg = Ok s /\ In s ZODIAC.
Proof.
  unfold zodiac_from_longitude. rewrite zodiac_index.
  destruct (getitem_ZODIAC (sign_index lon_deg)) as (s & Hn & Hg).
  { unfold sign_index. apply Z.mod_pos_bound. lia. }
  exists s. split; [exact Hg|]. eapply nth_error_In, Hn.
Qed.

(** Every sign spans thirty degrees: [k] sectors further along the ecliptic
    the sign is [k] places further in [ZODIAC], cyclically; in particular a
    whole turn changes nothing. *)
Theorem zodiac_from_longitude_step (lon_deg : R) (k : Z) :
  zodiac_from_longitude (lon_deg + 30 * IZR k)
  = getitem ZODIAC ((sign_index lon_deg + k) mod 12)
  /\ zodiac_from_longitude (lon_deg + 360) = zodiac_from_longitude lon_deg.
Proof.
  assert (Hstep : forall j,
             zodiac_from_longitude (lon_deg + 30 * IZR j)
             = getitem ZODIAC ((sign_index lon_deg + j) mod 12)).
  { intros j. unfold zodiac_from_longitude.
    rewrite zodiac_index, sign_index_step. reflexivity. }
  split; [apply Hstep|].
  replace (lon_deg + 360) with (lon_deg + 30 * IZR 12) by lra.
  rewrite Hstep. unfold zodiac_from_longitude. rewrite zodiac_index.
  f_equal. unfold sign_index.
  rewrite <- Zplus_mod_idemp_r. change (12 mod 12)%Z with 0%Z.
  rewrite Z.add_0_r. apply Z.mod_mod. lia.
Qed.

(** ** The harmony meter *)

(** [harmony_value = int(round(moon_illum))] in [app]: [round] with one
    argument already returns an integer (ties to even), which [int] leaves
    unchanged. *)
Definition harmony_value (moon_illum : R) : Z := round_half_even moon_illum.

Lemma round_half_even_range (x : R) (a b : Z) :
  IZR a <= x <= IZR b -> (a <= round_half_even x <= b)%Z.
Proof.
  intros [Ha Hb].
  pose proof (round_half_even_bounds x) as [Hlo Hhi].
  assert (Hfa : (a <= floor x)%Z).
  { rewrite <- (floor_IZR a). apply floor_le, Ha. }
  split; [lia|].
  destruct (Req_dec x (IZR b)) as [->|Hne].
  - rewrite round_half_even_IZR. lia.
  - pose proof (floor_bounds x) as [Hf _].
    assert (Hlt : IZR (floor x) < IZR b) by lra.
    apply lt_IZR in Hlt. lia.
Qed.

(** The value handed to the progress bar, [harmony_value / 100.0], is a
    fraction between 0 and 1 for every Julian Day, as a progress bar
    requires. *)
Theorem harmony_meter_range (jd : R) :
  (0 <= harmony_value (moon_phase_illumination jd) <= 100)%Z
  /\ 0 <= IZR (harmony_value (moon_phase_illumination jd)) / 100 <= 1.
Proof.
  assert (H : (0 <= harmony_value (moon_phase_illumination jd) <= 100)%Z).
  { apply round_half_even_range. unfold moon_phase_illumination.
    apply round1_range.
    pose proof (COS_bound (radians (rem (moon_ecliptic_longitude jd
                                         - sun_ecliptic_longitude jd) 360))).
    lra. }
  split; [exact H|].
  destruct H as [H0 H1]. apply IZR_le in H0, H1. lra.
Qed.

(** ** The Julian Day counts civil days *)

(** One civil day later the Julian Day is one more: inside a month, and from
    the last day of any month to the first of the next, December to January
    and February (of 28 or 29 days) to March included.  The year bound is
    where the truncation of [int] starts to differ from a floor. *)
Theorem to_julian_day_next_day (y m h mi s : Z) :
  (-4715 <= y)%Z -> (1 <= m <= 12)%Z ->
  to_julian_day (mk_datetime (fst (next_month y m)) (snd (next_month y m))
                   1 h mi s)
  = to_julian_day (mk_datetime y m (days_in_month y m) h mi s) + 1
  /\ forall d,
       to_julian_day (mk_datetime y m (d + 1) h mi s)
       = to_julian_day (mk_datetime y m d h mi s) + 1.
Proof.
  intros Hy Hm.
  assert (Hn : (-4715 <= fst (next_month y m)
                /\ -1 <= snd (next_month y m))%Z).
  { unfold next_month. destruct (m =? 12)%Z; simpl; lia. }
  split.
  - rewrite !to_julian_day_split by (simpl; lia).
    unfold second_of_day. simpl.
    rewrite (day_number_day _ _ 1), day_number_next_month by lia.
    rewrite plus_IZR. lra.
  - intros d. rewrite !to_julian_day_split by (simpl; lia).
    unfold second_of_day. simpl.
    rewrite (day_number_day _ _ (d + 1)), (day_number_day _ _ d).
    rewrite !plus_IZR. lra.
Qed.

Lemma to_julian_day_next_day_witness :
  to_julian_day (mk_datetime 2024 3 1 12 26 0)
  = to_julian_day (mk_datetime 2024 2 29 12 26 0) + 1.
Proof.
  apply (proj1 (to_julian_day_next_day 2024 2 12 26 0
                  ltac:(lia) ltac:(lia))).
Defined.

(** ** How far the series move a longitude *)

(** The periodic terms move the Sun at most 1.935 degrees, and the Moon at
    most 8.434 degrees, away from the mean longitude (up to whole turns). *)
Theorem longitude_near_mean (jd : R) :
  (exists k : Z,
      Rabs (sun_ecliptic_longitude jd
            - (280.460 + 0.9856474 * (jd - 2451545)) - IZR k * 360) <= 1.935)
  /\ (exists k : Z,
         Rabs (moon_ecliptic_longitude jd
               - (218.316 + 13.176396 * (jd - 2451545)) - IZR k * 360)
         <= 8.434).
Proof.
  split.
  - unfold sun_ecliptic_longitude. cbv zeta.
    set (mean := 280.460 + 0.9856474 * (jd - 2451545)).
    set (g := rem (357.528 + 0.9856003 * (jd - 2451545)) 360).
    rewrite (rem_shift (rem mean 360 + _ + _) 360).
    set (k1 := (- floor ((rem mean 360 + 1.915 * sin (radians g)
                          + 0.020 * sin (radians (2 * g))) / 360))%Z).
    rewrite (rem_shift mean 360).
    set (k2 := (- floor (mean / 360))%Z).
    exists (k1 + k2)%Z. rewrite plus_IZR.
    pose proof (SIN_bound (radians g)).
    pose proof (SIN_bound (radians (2 * g))).
    apply Rabs_le. lra.
  - unfold moon_ecliptic_longitude. cbv zeta.
    set (mean := 218.316 + 13.176396 * (jd - 2451545)).
    set (Mm := rem (134.963 + 13.064993 * (jd - 2451545)) 360).
    set (D := rem (297.850 + 12.190749 * (jd - 2451545)) 360).
    rewrite (rem_shift (rem mean 360 + _ + _ + _ + _) 360).
    set (k1 := (- floor ((rem mean 360 + 6.289 * sin (radians Mm)
                          + 1.274 * sin (radians (2 * D - Mm))
                          + 0.658 * sin (radians (2 * D))
                          + 0.213 * sin (radians (2 * Mm))) / 360))%Z).
    rewrite (rem_shift mean 360).
    set (k2 := (- floor (mean / 360))%Z).
    exists (k1 + k2)%Z. rewrite plus_IZR.
    pose proof (SIN_bound (radians Mm)).
    pose proof (SIN_bound (radians (2 * D - Mm))).
    pose proof (SIN_bound (radians (2 * D))).
    pose proof (SIN_bound (radians (2 * Mm))).
    apply Rabs_le. lra.
Qed.

(** ** Bioregion *)

Definition bioregional_tone (latitude : R) : string :=
  let lat_abs := Rabs latitude in
  if Rlt_dec lat_abs 15 then "tropical"
  else if Rlt_dec lat_abs 45 then "temperate"
  else "boreal".

(** The bioregion does not distinguish the hemispheres, and its three bands
    are: strictly within 15 degrees of the equator, from 15 to strictly
    below 45, and from 45 on -- the boundaries 15 and 45 belonging to the
    band further from the equator. *)
Theorem bioregional_tone_bands (latitude : R) :
  bioregional_tone (- latitude) = bioregional_tone latitude
  /\ (bioregional_tone latitude = "tropical" <-> -15 < latitude < 15)
  /\ (bioregional_tone latitude = "temperate"
      <-> (-45 < latitude <= -15 \/ 15 <= latitude < 45))
  /\ (bioregional_tone latitude = "boreal"
      <-> (latitude <= -45 \/ 45 <= latitude)).
Proof.
  unfold bioregional_tone. rewrite Rabs_Ropp.
  split; [reflexivity|].
  unfold Rabs. destruct (Rcase_abs latitude) as [Hneg|Hpos];
    repeat match goal with
           | |- context [Rlt_dec ?a ?b] => destruct (Rlt_dec a b)
           end;
    repeat split; intros; try discriminate; try reflexivity; try lra.
Qed.

(** ** Longitudes that are not numbers *)

(** A float that is a NaN or an infinity. *)
Definition non_finite (x : float) : bool :=
  match Prim2SF x with
  | S754_nan | S754_infinity _ => true
  | _ => false
  end.

Lemma fmod_non_finite (x y : float) :
  non_finite x = true -> F64.fmod x y = nan.
Proof.
  unfold non_finite, F64.fmod.
  destruct (Prim2SF x); try discriminate; intros _;
    destruct (Prim2SF y); reflexivity.
Qed.

Lemma sub_nan_r (x : float) : (x - nan)%float = nan.
Proof.
  apply Prim2SF_inj. rewrite sub_spec.
  change (Prim2SF nan) with S754_nan.
  destruct (Prim2SF x); reflexivity.
Qed.

Lemma sub_non_finite (x y : float) :
  non_finite x = true \/ non_finite y = true ->
  non_finite (x - y) = true.
Proof.
  unfold non_finite. rewrite sub_spec.
  destruct (Prim2SF x) as [sx|sx| |sx mx ex];
    destruct (Prim2SF y) as [sy|sy| |sy my ey];
    intros [H|H]; try discriminate; try reflexivity;
    destruct sx, sy; reflexivity.
Qed.

(** A longitude that is a NaN or an infinity never yields a sign or a house:
    the floor division produces a NaN and [int] raises [ValueError]. *)
Theorem non_finite_longitude_raises (x y : float) :
  (non_finite x = true ->
   F64.zodiac_from_longitude x = Raise ValueError)
  /\ (non_finite x = true \/ non_finite y = true ->
      F64.house_from_longitude x y = Raise ValueError).
Proof.
  split.
  - intros H. unfold F64.zodiac_from_longitude, F64.floordiv. cbv zeta.
    rewrite (fmod_non_finite x 30 H), sub_nan_r.
    vm_compute. reflexivity.
  - intros H. apply sub_non_finite in H.
    unfold F64.house_from_longitude, F64.rem. cbv zeta.
    rewrite (fmod_non_finite _ 360 H).
    vm_compute. reflexivity.
Qed.

Lemma non_finite_longitude_raises_witness :
  F64.zodiac_from_longitude infinity = Raise ValueError
  /\ F64.house_from_longitude 10 nan = Raise ValueError.
Proof.
  split.
  - apply (proj1 (non_finite_longitude_raises infinity 0)).
    vm_compute. reflexivity.
  - apply (proj2 (non_finite_longitude_raises 10 nan)).
    right. vm_compute. reflexivity.
Defined.

(** * Companion matching and chat *)

(** Text is kept as Python keeps it in a source file: a [str] is the string
    of its UTF-8 bytes.  For ASCII text a byte is a character; the functions
    below that look at single characters ([lower], [isspace]) are those of
    Python on ASCII text, and the properties that depend on them are stated
    for ASCII names. *)

(** ** Exceptions and dictionaries *)

(** The earlier exceptions, and the [KeyError] of a dictionary subscript. *)
Inductive exception : Set :=
| Builtin (e : exn)
| KeyError.

Inductive outcome (A : Type) : Type :=
| Returns (a : A)
| Raises (e : exception).
Arguments Returns {A} a.
Arguments Raises {A} e.

Definition lift {A : Type} (r : result A) : outcome A :=
  match r with
  | Ok a => Returns a
  | Raise e => Raises (Builtin e)
  end.

(** A [dict] with string keys, as the list of its items in insertion
    order. *)
Definition dict (V : Type) : Type := list (string * V).

Fixpoint lookup {V : Type} (d : dict V) (k : string) : option V :=
  match d with
  | [] => None
  | (k', v) :: d' => if String.eqb k k' then Some v else lookup d' k
  end.

(** [d.get(k, default)] *)
Definition dict_get {V : Type} (d : dict V) (k : string) (default : V) : V :=
  match lookup d k with
  | Some v => v
  | None => default
  end.

(** [d[k]] *)
Definition dict_getitem {V : Type} (d : dict V) (k : string) : outcome V :=
  match lookup d k with
  | Some v => Returns v
  | None => Raises KeyError
  end.

(** [d.values()] and [sum(lists, [])] *)
Definition values {V : Type} (d : dict V) : list V := map snd d.

Definition keys {V : Type} (d : dict V) : list string := map fst d.

Definition sum_lists {A : Type} (ls : list (list A)) : list A :=
  fold_left (fun acc l => (acc ++ l)%list) ls [].

(** ** The tables *)

Definition SPIRIT_POOL : dict (list string) :=
  [ ("fire", ["Phoenix 🔥"; "Dragon 🔥"; "Salamander 🔥"]);
    ("earth", ["Wolf 🐺"; "Stag 🦌"; "Tortoise 🐢"]);
    ("air", ["Raven 🪶"; "Hawk 🦅"; "Sphinx 🦁🪶"]);
    ("water", ["Otter 🦦"; "Koi 🐟"; "Selkie 🧜‍♀️"]) ].

Definition PHRASE_POOLS : dict (list string) :=
  [ ("fiery",
     [ "Rise and blaze — start that streak you've been thinking of. 🔥";
       "Spark, don't scorch: channel your heat into clean action. 🔥";
       "A bold first step wins more than a perfect plan. 🚀";
       "Ignite your passion and let it guide you through the day. 🌟";
       "Embrace the fire within; it's your greatest ally. 🛡️" ]);
    ("airy",
     [ "Playful curiosity will find you better doors today. 🌬️";
       "Breeze through clutter — ideas thrive in open spaces. 💨";
       "Share one story; you'll find the thread you need. 🧵";
       "Let your thoughts soar like the wind. 🕊️";
       "Connect the dots with a light-hearted approach. 🔗" ]);
    ("earthy",
     [ "Small steady work adds up — plant one seed today. 🌱";
       "Organize a single corner of your life and watch momentum grow. 🪴";
       "Trust the slow, quiet progress underfoot. 🪨";
       "Ground yourself in nature's rhythm. 🌳";
       "Build foundations that last a lifetime. 🏰" ]);
    ("watery",
     [ "Feel before you speak; your subtlety is your strength. 🌊";
       "Let intuition polish the edges of a choice tonight. 🌕";
       "A humane touch heals where logic cannot. 🤲";
       "Flow with the currents of emotion. 🌀";
       "Dive deep into your inner wisdom. 🐚" ]) ].

(** An entry of [PERSONA_VARIATIONS]: a dictionary with the two keys
    ["persona"] and ["style"]. *)
Record persona_entry : Set := mk_persona {
  persona : string;
  style : string
}.

Definition PERSONA_VARIATIONS : dict persona_entry :=
  [ ("Phoenix 🔥",
     mk_persona "Wise and reborn, offering guidance on transformation."
       "fiery");
    ("Dragon 🔥",
     mk_persona "Fierce protector, sharing secrets of power."
       "fiery");
    ("Salamander 🔥",
     mk_persona "Playful fire spirit, igniting creativity."
       "fiery");
    ("Wolf 🐺",
     mk_persona "Loyal pack leader, teaching unity and instinct."
       "earthy");
    ("Stag 🦌",
     mk_persona "Graceful wanderer, guiding through forests of life."
       "earthy");
    ("Tortoise 🐢",
     mk_persona "Patient sage, emphasizing endurance."
       "earthy");
    ("Raven 🪶",
     mk_persona "Mysterious messenger, revealing hidden truths."
       "airy");
    ("Hawk 🦅",
     mk_persona "Sharp visionary, helping focus on goals."
       "airy");
    ("Sphinx 🦁🪶",
     mk_persona "Enigmatic riddle-master, sparking intellect."
       "airy");
    ("Otter 🦦",
     mk_persona "Joyful swimmer, promoting play and adaptability."
       "watery");
    ("Koi 🐟",
     mk_persona "Resilient fish, symbolizing perseverance."
       "watery");
    ("Selkie 🧜‍♀️",
     mk_persona "Shape-shifting seal, exploring emotions."
       "watery") ].

(** The [element_map] local to [match_spirits]. *)
Definition element_map : dict string :=
  [ ("Aries", "fire"); ("Taurus", "earth"); ("Gemini", "air");
    ("Cancer", "water"); ("Leo", "fire"); ("Virgo", "earth");
    ("Libra", "air"); ("Scorpio", "water"); ("Sagittarius", "fire");
    ("Capricorn", "earth"); ("Aquarius", "air"); ("Pisces", "water") ].

(** ** Matching logic *)

(** The fields of a [datetime.date]. *)
Record date : Set := mk_date {
  date_year : Z;
  date_month : Z;
  date_day : Z
}.

Definition tone_seed_from_birth (birth_date : date) : result string :=
  let s := ((date_day birth_date + date_month birth_date) mod 4)%Z in
  getitem ["fiery"; "airy"; "earthy"; "watery"] s.

(** [str.lower] on an ASCII character.  A [string] holds one character per
    byte, which is how an ASCII name is written; on other characters
    [str.lower] is not this function (it can even yield two characters, one
    of them a vowel), so the statements about names below are about ASCII
    names. *)
Definition lower (c : Ascii.ascii) : Ascii.ascii :=
  let n := Ascii.N_of_ascii c in
  if ((65 <=? n) && (n <=? 90))%N then Ascii.ascii_of_N (n + 32) else c.

Definition is_vowel (ch : Ascii.ascii) : bool :=
  existsb (Ascii.eqb ch) (list_ascii_of_string "aeiou").

(** [sum(1 for ch in name.lower() if ch in 'aeiou')], for an ASCII name. *)
Fixpoint count_vowels (name : string) : Z :=
  match name with
  | EmptyString => 0%Z
  | String ch rest =>
      ((if is_vowel (lower ch) then 1 else 0) + count_vowels rest)%Z
  end.

Definition phonetic_vibration (name : string) : result string :=
  let vowels := count_vowels name in
  getitem ["angelic"; "animal"; "spirit"; "elemental"] (vowels mod 4)%Z.

(** ** Splitting a name into words *)

(** [str.isspace] on an ASCII character: tab to carriage return, the four
    separators 28..31, and the space.  (Python knows further whitespace
    characters outside ASCII, which this test does not cover.) *)
Definition isspace (c : Ascii.ascii) : bool :=
  let n := Ascii.N_of_ascii c in
  (((9 <=? n) && (n <=? 13)) || ((28 <=? n) && (n <=? 32)))%N.

(** [s.split()]: the maximal runs of characters that are not whitespace.
    [word] is the run being read. *)
Fixpoint split_from (s word : string) : list string :=
  match s with
  | EmptyString => if String.eqb word "" then [] else [word]
  | String c s' =>
      if isspace c
      then (if String.eqb word "" then split_from s' ""
            else word :: split_from s' "")
      else split_from s' (word ++ String c "")
  end.

Definition split (s : string) : list string := split_from s "".

(** A string of ASCII whitespace only (the empty string included), a string
    without ASCII whitespace, and a string of ASCII characters. *)
Fixpoint blank (s : string) : bool :=
  match s with
  | EmptyString => true
  | String c s' => isspace c && blank s'
  end.

Fixpoint no_space (s : string) : bool :=
  match s with
  | EmptyString => true
  | String c s' => negb (isspace c) && no_space s'
  end.

Fixpoint is_ascii (s : string) : bool :=
  match s with
  | EmptyString => true
  | String c s' => (Ascii.N_of_ascii c <? 128)%N && is_ascii s'
  end.

(** ** Random choices *)

Section Companion.

(** The generator [random.Random]: its state, and [_randbelow(n)], which
    returns an integer below [n] and moves the state on. *)
Variable rng : Type.
Variable randbelow : rng -> Z -> Z * rng.
Hypothesis randbelow_range :
  forall g n, (0 < n)%Z -> (0 <= fst (randbelow g n) < n)%Z.

(** A computation that draws from the generator and may raise. *)
Definition M (A : Type) : Type := rng -> outcome (A * rng).

Definition ret {A : Type} (a : A) : M A := fun g => Returns (a, g).

Definition raise {A : Type} (e : exception) : M A := fun _ => Raises e.

Definition mbind {A B : Type} (m : M A) (k : A -> M B) : M B :=
  fun g => match m g with
           | Returns (a, g') => k a g'
           | Raises e => Raises e
           end.

Definition of_outcome {A : Type} (o : outcome A) : M A :=
  fun g => match o with
           | Returns a => Returns (a, g)
           | Raises e => Raises e
           end.

(** [rng.choice(seq)]: [IndexError] on an empty sequence, else
    [seq[self._randbelow(len(seq))]]. *)
Definition choice {A : Type} (seq : list A) : M A :=
  fun g =>
    let n := Z.of_nat (List.length seq) in
    if (n =? 0)%Z then Raises (Builtin IndexError)
    else let (i, g') := randbelow g n in
         of_outcome (lift (getitem seq i)) g'.

(** One of the dictionaries [match_spirits] appends to [picks]. *)
Record pick : Set := mk_pick {
  role : string;
  spirit : string;
  reason : string
}.

Definition match_spirits (sun_sign moon_sign tone vib bio : string)
  : M (list pick) :=
  let picks := [] in
  let primary_el := dict_get element_map sun_sign "earth" in
  let secondary_el := dict_get element_map moon_sign "water" in
  mbind (of_outcome (dict_getitem SPIRIT_POOL primary_el)) (fun pool =>
  mbind (choice pool) (fun sp =>
  let picks :=
    (picks ++ [mk_pick "Primary Familiar" sp
                 ("Born under " ++ sun_sign ++ " (" ++ primary_el ++ ")")])%list
  in
  mbind (of_outcome (dict_getitem SPIRIT_POOL secondary_el)) (fun pool2 =>
  mbind (choice pool2) (fun sp2 =>
  let picks :=
    (picks ++ [mk_pick "Guardian" sp2
                 ("Moon in " ++ moon_sign ++ " (" ++ secondary_el ++ ")")])%list
  in
  mbind (choice (sum_lists (values SPIRIT_POOL))) (fun vib_pick =>
  let picks :=
    (picks ++ [mk_pick "Whisperer" vib_pick
                 ("Phonetic vibe: " ++ vib ++ ", bioregion: " ++ bio)])%list
  in
  ret picks))))).

(** ** Chat generation *)

Definition generate_alispar_response
    (name sun_sign moon_sign tone spirit : string) : M string :=
  let title := "Your Mystic Companion" in
  mbind (of_outcome (lift (getitem (split name) 0))) (fun first =>
  let greeting := title ++ " 🧚: Hello " ++ first ++ "!" in
  let persona0 :=
    dict_get PERSONA_VARIATIONS spirit (mk_persona "Mystic guide" tone) in
  mbind (of_outcome (dict_getitem PHRASE_POOLS (style persona0))) (fun pool =>
  mbind (choice pool) (fun phrase =>
  let flavor :=
    "With Sun in " ++ sun_sign ++ " and Moon in " ++ moon_sign ++ ", "
    ++ phrase ++ " As your " ++ persona persona0 ++ ", I say..." in
  ret (greeting ++ " " ++ flavor)))).

End Companion.

(** ** Facts about lookups, choices and words *)

Lemma getitem_in_range {A : Type} (l : list A) (i : Z) :
  (0 <= i < Z.of_nat (List.length l))%Z ->
  exists a, getitem l i = Ok a /\ In a l.
Proof.
  intros Hi. unfold getitem.
  destruct (i <? 0)%Z eqn:E; [apply Z.ltb_lt in E; lia|]. rewrite E.
  destruct (nth_error l (Z.to_nat i)) as [a|] eqn:En.
  - exists a. split; [reflexivity|]. eapply nth_error_In, En.
  - apply nth_error_None in En. lia.
Qed.

Lemma choice_nonempty (rng : Type) (randbelow : rng -> Z -> Z * rng)
    {A : Type} (seq : list A) (g : rng) :
  (forall g n, (0 < n)%Z -> (0 <= fst (randbelow g n) < n)%Z) ->
  seq <> [] ->
  exists a g', choice rng randbelow seq g = Returns (a, g') /\ In a seq.
Proof.
  intros Hrange Hne. unfold choice.
  assert (Hn : (0 < Z.of_nat (List.length seq))%Z).
  { destruct seq; [contradiction | simpl; lia]. }
  destruct (Z.of_nat (List.length seq) =? 0)%Z eqn:E;
    [apply Z.eqb_eq in E; lia|].
  pose proof (Hrange g _ Hn) as Hi.
  destruct (randbelow g (Z.of_nat (List.length seq))) as [i g'].
  simpl in Hi. destruct (getitem_in_range seq i Hi) as (a & Ha & Hin).
  exists a, g'. rewrite Ha. split; [reflexivity | exact Hin].
Qed.

Lemma choice_empty (rng : Type) (randbelow : rng -> Z -> Z * rng)
    {A : Type} (g : rng) :
  choice rng randbelow (@nil A) g = Raises (Builtin IndexError).
Proof. reflexivity. Qed.

Lemma append_assoc (a b c : string) : (a ++ b) ++ c = a ++ (b ++ c).
Proof. induction a as [|x a IH]; simpl; [reflexivity | rewrite IH; reflexivity]. Qed.

Lemma append_empty_r (a : string) : a ++ "" = a.
Proof. induction a as [|x a IH]; simpl; [reflexivity | rewrite IH; reflexivity]. Qed.

(** What may follow a word: the end of the string, or whitespace. *)
Definition word_end (rest : string) : Prop :=
  rest = "" \/ exists c r, rest = String c r /\ isspace c = true.

Lemma split_from_word (s word : string) :
  word <> "" ->
  exists w rest ws,
    split_from s word = (word ++ w) :: ws
    /\ s = w ++ rest /\ no_space w = true /\ word_end rest.
Proof.
  revert word. induction s as [|c s IH]; intros word Hw.
  - exists "", "", []. simpl.
    apply String.eqb_neq in Hw. rewrite Hw, append_empty_r.
    repeat split. left; reflexivity.
  - simpl. destruct (isspace c) eqn:Ec.
    + exists "", (String c s), (split_from s "").
      apply String.eqb_neq in Hw. rewrite Hw, append_empty_r.
      repeat split. right. exists c, s. split; [reflexivity | exact Ec].
    + destruct (IH (word ++ String c "")) as (w & rest & ws & H1 & H2 & H3 & H4).
      { destruct word; discriminate. }
      exists (String c w), rest, ws.
      rewrite H1, append_assoc. simpl. rewrite Ec, H3, H2.
      repeat split. exact H4.
Qed.

Lemma split_blank (s : string) : blank s = true -> split s = [].
Proof.
  unfold split. induction s as [|c s IH]; simpl; [reflexivity|].
  intros H. apply andb_true_iff in H as [Hc Hs].
  rewrite Hc. simpl. apply IH, Hs.
Qed.

(** The first word of a name that is not blank: what is left of the name
    after its leading whitespace, up to the next whitespace. *)
Lemma split_first (s : string) :
  blank s = false ->
  exists pre w rest ws,
    split s = w :: ws
    /\ s = pre ++ w ++ rest
    /\ blank pre = true /\ w <> "" /\ no_space w = true /\ word_end rest.
Proof.
  unfold split. induction s as [|c s IH]; simpl; [discriminate|].
  destruct (isspace c) eqn:Ec; simpl.
  - intros Hs. destruct (IH Hs) as (pre & w & rest & ws & H1 & H2 & H3 & H4 & H5 & H6).
    exists (String c pre), w, rest, ws. simpl. rewrite Ec, H3, H1, H2.
    repeat split; assumption.
  - intros _.
    destruct (split_from_word s (String c "") ltac:(discriminate))
      as (w & rest & ws & H1 & H2 & H3 & H4).
    exists "", (String c w), rest, ws. simpl. simpl in H1.
    rewrite H1, Ec, H3, H2. repeat split; [discriminate | exact H4].
Qed.

(** ** The tables agree with each other *)

Definition ELEMENTS : list string := ["fire"; "earth"; "air"; "water"].

(** The phrase style that goes with an element. *)
Definition element_style : dict string :=
  [("fire", "fiery"); ("earth", "earthy"); ("air", "airy"); ("water", "watery")].

Ltac destruct_eqb :=
  repeat match goal with
         | |- context [String.eqb ?a ?b] => destruct (String.eqb a b)
         | H : context [String.eqb ?a ?b] |- _ => destruct (String.eqb a b)
         end.

Lemma element_map_get (k default : string) :
  In default ELEMENTS -> In (dict_get element_map k default) ELEMENTS.
Proof.
  intros Hd. unfold dict_get, element_map, lookup.
  destruct_eqb; try exact Hd; simpl; tauto.
Qed.

Lemma phrase_pool_nonempty (k : string) (pool : list string) :
  lookup PHRASE_POOLS k = Some pool -> pool <> [].
Proof.
  unfold PHRASE_POOLS, lookup. destruct_eqb; intros H;
    try discriminate; injection H as <-; discriminate.
Qed.

Lemma persona_style_known (sp : string) (e : persona_entry) :
  lookup PERSONA_VARIATIONS sp = Some e ->
  exists pool, lookup PHRASE_POOLS (style e) = Some pool /\ pool <> [].
Proof.
  unfold PERSONA_VARIATIONS. unfold lookup at 1. destruct_eqb; intros H;
    try discriminate; injection H as <-;
    eexists; (split; [reflexivity | discriminate]).
Qed.

(** Every spirit of every pool has a persona whose style is the style of the
    pool's element. *)
Lemma spirit_pool_personas (el : string) :
  In el ELEMENTS ->
  exists pool st,
    lookup SPIRIT_POOL el = Some pool /\ pool <> []
    /\ lookup element_style el = Some st
    /\ forall sp, In sp pool ->
         exists e, lookup PERSONA_VARIATIONS sp = Some e /\ style e = st.
Proof.
  unfold ELEMENTS. simpl.
  intros [<-|[<-|[<-|[<-|[]]]]];
    eexists; eexists;
    (split; [reflexivity|]); (split; [discriminate|]);
    (split; [reflexivity|]);
    simpl; intros sp [<-|[<-|[<-|[]]]];
    eexists; split; reflexivity.
Qed.

Lemma all_spirits_are_personas :
  sum_lists (values SPIRIT_POOL) = keys PERSONA_VARIATIONS.
Proof. reflexivity. Qed.

Lemma persona_of_key (sp : string) :
  In sp (keys PERSONA_VARIATIONS) ->
  exists e, lookup PERSONA_VARIATIONS sp = Some e.
Proof.
  simpl.
  intros [<-|[<-|[<-|[<-|[<-|[<-|[<-|[<-|[<-|[<-|[<-|[<-|[]]]]]]]]]]]]];
    eexists; reflexivity.
Qed.

(** ** Properties of the matching logic *)

(** Whatever the birth date, [tone_seed_from_birth] returns (the index
    [(day + month) % 4] is never out of range), and the tone is a key of
    [PHRASE_POOLS] with a pool that is not empty: a chat reply that falls
    back on the tone always finds phrases. *)
Theorem tone_seed_from_birth_total (birth_date : date) :
  exists tone pool,
    tone_seed_from_birth birth_date = Ok tone
    /\ lookup PHRASE_POOLS tone = Some pool /\ pool <> [].
Proof.
  unfold tone_seed_from_birth.
  pose proof (Z.mod_pos_bound (date_day birth_date + date_month birth_date) 4
                ltac:(lia)) as H.
  assert (Hc : ((date_day birth_date + date_month birth_date) mod 4 = 0
                \/ (date_day birth_date + date_month birth_date) mod 4 = 1
                \/ (date_day birth_date + date_month birth_date) mod 4 = 2
                \/ (date_day birth_date + date_month birth_date) mod 4 = 3)%Z)
    by lia.
  destruct Hc as [->|[->|[->| ->]]];
    eexists; eexists; (split; [reflexivity|]);
    (split; [reflexivity | discriminate]).
Qed.

Lemma count_vowels_app (a b : string) :
  count_vowels (a ++ b) = (count_vowels a + count_vowels b)%Z.
Proof.
  induction a as [|c a IH]; simpl; [reflexivity|]. rewrite IH. lia.
Qed.

(** [phonetic_vibration] returns one of its four labels for every ASCII
    name, the empty name included; only the number of vowels modulo four
    matters, so ASCII text whose vowels come in fours -- or that has none,
    like spaces and consonants -- can be appended without changing the
    label. *)
Theorem phonetic_vibration_total (name suffix : string) :
  is_ascii name = true ->
  is_ascii suffix = true ->
  (exists v, phonetic_vibration name = Ok v
             /\ In v ["angelic"; "animal"; "spirit"; "elemental"])
  /\ phonetic_vibration "" = Ok "angelic"
  /\ ((count_vowels suffix mod 4 = 0)%Z ->
      phonetic_vibration (name ++ suffix) = phonetic_vibration name).
Proof.
  intros _ _. split; [|split].
  - unfold phonetic_vibration.
    pose proof (Z.mod_pos_bound (count_vowels name) 4 ltac:(lia)) as H.
    assert (Hc : (count_vowels name mod 4 = 0 \/ count_vowels name mod 4 = 1
                  \/ count_vowels name mod 4 = 2
                  \/ count_vowels name mod 4 = 3)%Z) by lia.
    destruct Hc as [->|[->|[->| ->]]];
      eexists; (split; [reflexivity | simpl; tauto]).
  - reflexivity.
  - intros H. unfold phonetic_vibration.
    rewrite count_vowels_app, <- Zplus_mod_idemp_r, H, Z.add_0_r. reflexivity.
Qed.

Lemma phonetic_vibration_total_witness :
  is_ascii "Mahan" = true /\ is_ascii " H R Gwd" = true
  /\ phonetic_vibration "Mahan" = Ok "spirit"
  /\ phonetic_vibration ("Mahan" ++ " H R Gwd") = phonetic_vibration "Mahan".
Proof.
  split; [reflexivity|]. split; [reflexivity|]. split; [reflexivity|].
  apply (proj2 (proj2 (phonetic_vibration_total "Mahan" " H R Gwd"
                         eq_refl eq_refl))).
  reflexivity.
Defined.

(** The element of a sign computed from a longitude is always found in
    [element_map] (the defaults of [.get] are not used), it cycles fire,
    earth, air, water along the zodiac, and [SPIRIT_POOL] has a pool for
    it. *)
Theorem element_of_computed_sign (lon_deg : R) (sign : string) :
  zodiac_from_longitude lon_deg = Ok sign ->
  exists el pool,
    lookup element_map sign = Some el
    /\ nth_error ELEMENTS (Z.to_nat (sign_index lon_deg mod 4)) = Some el
    /\ lookup SPIRIT_POOL el = Some pool.
Proof.
  unfold zodiac_from_longitude. rewrite zodiac_index.
  assert (Hi : (0 <= sign_index lon_deg < 12)%Z).
  { unfold sign_index. apply Z.mod_pos_bound. lia. }
  assert (Hc : (sign_index lon_deg = 0 \/ sign_index lon_deg = 1
                \/ sign_index lon_deg = 2 \/ sign_index lon_deg = 3
                \/ sign_index lon_deg = 4 \/ sign_index lon_deg = 5
                \/ sign_index lon_deg = 6 \/ sign_index lon_deg = 7
                \/ sign_index lon_deg = 8 \/ sign_index lon_deg = 9
                \/ sign_index lon_deg = 10 \/ sign_index lon_deg = 11)%Z)
    by lia.
  destruct Hc as [->|[->|[->|[->|[->|[->|[->|[->|[->|[->|[->| ->]]]]]]]]]]];
    intros H; injection H as <-;
    eexists; eexists; repeat split; reflexivity.
Qed.

Lemma element_of_computed_sign_witness :
  exists el pool,
    lookup element_map "Leo" = Some el
    /\ nth_error ELEMENTS (Z.to_nat (sign_index 123.456 mod 4)) = Some el
    /\ lookup SPIRIT_POOL el = Some pool.
Proof.
  apply (element_of_computed_sign 123.456 "Leo").
  rewrite (zodiac_from_longitude_at 123.456 4) by lra. reflexivity.
Defined.

Lemma match_spirits_spec
    (rng : Type) (randbelow : rng -> Z -> Z * rng)
    (sun_sign moon_sign tone vib bio : string) (g : rng) :
  (forall g n, (0 < n)%Z -> (0 <= fst (randbelow g n) < n)%Z) ->
  exists p1 p2 p3 g',
    match_spirits rng randbelow sun_sign moon_sign tone vib bio g
    = Returns ([p1; p2; p3], g')
    /\ role p1 = "Primary Familiar" /\ role p2 = "Guardian"
    /\ role p3 = "Whisperer"
    /\ In (spirit p1)
         (dict_get SPIRIT_POOL (dict_get element_map sun_sign "earth") [])
    /\ In (spirit p2)
         (dict_get SPIRIT_POOL (dict_get element_map moon_sign "water") [])
    /\ forall p, In p [p1; p2; p3] ->
         exists e pool,
           lookup PERSONA_VARIATIONS (spirit p) = Some e
           /\ lookup PHRASE_POOLS (style e) = Some pool /\ pool <> [].
Proof.
  intros Hrange.
  destruct (spirit_pool_personas (dict_get element_map sun_sign "earth"))
    as (pool1 & st1 & Hl1 & Hne1 & _ & Hp1).
  { apply element_map_get. simpl; tauto. }
  destruct (spirit_pool_personas (dict_get element_map moon_sign "water"))
    as (pool2 & st2 & Hl2 & Hne2 & _ & Hp2).
  { apply element_map_get. simpl; tauto. }
  destruct (choice_nonempty rng randbelow pool1 g Hrange Hne1)
    as (sp & g1 & Hc1 & Hin1).
  destruct (choice_nonempty rng randbelow pool2 g1 Hrange Hne2)
    as (sp2 & g2 & Hc2 & Hin2).
  destruct (choice_nonempty rng randbelow (sum_lists (values SPIRIT_POOL)) g2
              Hrange ltac:(discriminate))
    as (vib_pick & g3 & Hc3 & Hin3).
  eexists; eexists; eexists; exists g3.
  split.
  { unfold match_spirits, mbind, of_outcome, dict_getitem, ret.
    rewrite Hl1, Hc1, Hl2, Hc2, Hc3. reflexivity. }
  simpl role. simpl spirit.
  repeat split.
  - unfold dict_get at 1. rewrite Hl1. exact Hin1.
  - unfold dict_get at 1. rewrite Hl2. exact Hin2.
  - assert (Hall : forall s,
               (exists e, lookup PERSONA_VARIATIONS s = Some e) ->
               exists e pool,
                 lookup PERSONA_VARIATIONS s = Some e
                 /\ lookup PHRASE_POOLS (style e) = Some pool /\ pool <> []).
    { intros s [e He]. destruct (persona_style_known s e He) as (pool & Hq).
      exists e, pool. tauto. }
    intros p [<-|[<-|[<-|[]]]]; simpl spirit; apply Hall.
    + destruct (Hp1 sp Hin1) as (e & He & _). exists e. exact He.
    + destruct (Hp2 sp2 Hin2) as (e & He & _). exists e. exact He.
    + apply persona_of_key. rewrite <- all_spirits_are_personas. exact Hin3.
Qed.

(** [match_spirits] never raises, whatever strings it is given and whatever
    the generator draws: it returns exactly three picks, with the roles
    Primary Familiar, Guardian and Whisperer in this order; the first spirit
    comes from the pool of the Sun sign's element (earth for an unknown
    sign), the second from the pool of the Moon sign's element (water for an
    unknown sign), and each of the three has a persona in
    [PERSONA_VARIATIONS] whose style has phrases in [PHRASE_POOLS]. *)
Theorem match_spirits_three_picks
    (rng : Type) (randbelow : rng -> Z -> Z * rng)
    (sun_sign moon_sign tone vib bio : string) (g : rng) :
  (forall g n, (0 < n)%Z -> (0 <= fst (randbelow g n) < n)%Z) ->
  exists p1 p2 p3 g',
    match_spirits rng randbelow sun_sign moon_sign tone vib bio g
    = Returns ([p1; p2; p3], g')
    /\ role p1 = "Primary Familiar" /\ role p2 = "Guardian"
    /\ role p3 = "Whisperer"
    /\ In (spirit p1)
         (dict_get SPIRIT_POOL (dict_get element_map sun_sign "earth") [])
    /\ In (spirit p2)
         (dict_get SPIRIT_POOL (dict_get element_map moon_sign "water") [])
    /\ forall p, In p [p1; p2; p3] ->
         exists e pool,
           lookup PERSONA_VARIATIONS (spirit p) = Some e
           /\ lookup PHRASE_POOLS (style e) = Some pool /\ pool <> [].
Proof. exact (match_spirits_spec rng randbelow sun_sign moon_sign tone vib bio g). Qed.

(** A generator that always draws 0, for examples. *)
Definition first_choice (g : unit) (n : Z) : Z * unit := (0%Z, g).

Lemma match_spirits_three_picks_witness :
  exists p1 p2 p3 g',
    match_spirits unit first_choice "Cancer" "Leo" "airy" "animal" "tropical" tt
    = Returns ([p1; p2; p3], g')
    /\ role p1 = "Primary Familiar" /\ role p2 = "Guardian"
    /\ role p3 = "Whisperer"
    /\ In (spirit p1)
         (dict_get SPIRIT_POOL (dict_get element_map "Cancer" "earth") [])
    /\ In (spirit p2)
         (dict_get SPIRIT_POOL (dict_get element_map "Leo" "water") [])
    /\ forall p, In p [p1; p2; p3] ->
         exists e pool,
           lookup PERSONA_VARIATIONS (spirit p) = Some e
           /\ lookup PHRASE_POOLS (style e) = Some pool /\ pool <> [].
Proof.
  apply (match_spirits_three_picks unit first_choice).
  intros g n Hn. simpl. lia.
Defined.

(** ** Properties of the chat reply *)

(** A name that is empty or made of ASCII whitespace only (tab, line feed,
    vertical tab, form feed, carriage return, the separators 28..31, space)
    has no first word: [generate_alispar_response] raises [IndexError],
    before anything is drawn from the generator and whatever the other
    arguments are. *)
Theorem generate_alispar_response_blank_name
    (rng : Type) (randbelow : rng -> Z -> Z * rng)
    (name sun_sign moon_sign tone spirit : string) (g : rng) :
  blank name = true ->
  generate_alispar_response rng randbelow name sun_sign moon_sign tone spirit g
  = Raises (Builtin IndexError).
Proof.
  intros H. unfold generate_alispar_response, mbind, of_outcome.
  rewrite (split_blank name H). reflexivity.
Qed.

Lemma generate_alispar_response_blank_name_witness :
  generate_alispar_response unit first_choice "  " "Cancer" "Leo" "airy"
    "Otter 🦦" tt
  = Raises (Builtin IndexError).
Proof.
  apply generate_alispar_response_blank_name. reflexivity.
Defined.

Lemma generate_alispar_response_spec
    (rng : Type) (randbelow : rng -> Z -> Z * rng)
    (name sun_sign moon_sign tone spirit : string) (g : rng) :
  (forall g n, (0 < n)%Z -> (0 <= fst (randbelow g n) < n)%Z) ->
  is_ascii name = true -> blank name = false ->
  (lookup PERSONA_VARIATIONS spirit <> None
   \/ lookup PHRASE_POOLS tone <> None) ->
  exists pre first rest pool phrase g',
    name = pre ++ first ++ rest
    /\ blank pre = true /\ first <> "" /\ no_space first = true
    /\ word_end rest
    /\ lookup PHRASE_POOLS
         (style (dict_get PERSONA_VARIATIONS spirit
                   (mk_persona "Mystic guide" tone))) = Some pool
    /\ In phrase pool
    /\ generate_alispar_response rng randbelow name sun_sign moon_sign tone
         spirit g
       = Returns
           (("Your Mystic Companion" ++ " 🧚: Hello " ++ first ++ "!")
            ++ " "
            ++ ("With Sun in " ++ sun_sign ++ " and Moon in " ++ moon_sign
                ++ ", " ++ phrase ++ " As your "
                ++ persona (dict_get PERSONA_VARIATIONS spirit
                              (mk_persona "Mystic guide" tone))
                ++ ", I say..."),
            g').
Proof.
  intros Hrange _ Hname Hkey.
  destruct (split_first name Hname)
    as (pre & first & rest & ws & Hs & Hn & Hpre & Hne & Hns & Hend).
  assert (Hpool : exists pool,
             lookup PHRASE_POOLS
               (style (dict_get PERSONA_VARIATIONS spirit
                         (mk_persona "Mystic guide" tone))) = Some pool
             /\ pool <> []).
  { unfold dict_get.
    destruct (lookup PERSONA_VARIATIONS spirit) as [e|] eqn:Ee.
    - apply (persona_style_known spirit e Ee).
    - simpl style. destruct Hkey as [Hk|Hk]; [congruence|].
      destruct (lookup PHRASE_POOLS tone) as [pool|] eqn:Ep; [|congruence].
      exists pool. split; [reflexivity|].
      apply (phrase_pool_nonempty tone pool Ep). }
  destruct Hpool as (pool & Hpool & Hpne).
  destruct (choice_nonempty rng randbelow pool g Hrange Hpne)
    as (phrase & g' & Hc & Hin).
  exists pre, first, rest, pool, phrase, g'.
  repeat split; try assumption.
  unfold generate_alispar_response, mbind, of_outcome, dict_getitem, ret.
  rewrite Hs. simpl lift. cbv iota. rewrite Hpool, Hc. reflexivity.
Qed.

(** For an ASCII name with a word in it, and a spirit that has a persona or
    a tone that has phrases, [generate_alispar_response] returns: the reply
    greets the first word of the name (the name without its leading
    whitespace, up to the next whitespace), and carries one phrase of the
    pool of the persona's style -- the tone's pool for a spirit without
    persona. *)
Theorem generate_alispar_response_greets
    (rng : Type) (randbelow : rng -> Z -> Z * rng)
    (name sun_sign moon_sign tone spirit : string) (g : rng) :
  (forall g n, (0 < n)%Z -> (0 <= fst (randbelow g n) < n)%Z) ->
  is_ascii name = true -> blank name = false ->
  (lookup PERSONA_VARIATIONS spirit <> None
   \/ lookup PHRASE_POOLS tone <> None) ->
  exists pre first rest pool phrase g',
    name = pre ++ first ++ rest
    /\ blank pre = true /\ first <> "" /\ no_space first = true
    /\ word_end rest
    /\ lookup PHRASE_POOLS
         (style (dict_get PERSONA_VARIATIONS spirit
                   (mk_persona "Mystic guide" tone))) = Some pool
    /\ In phrase pool
    /\ generate_alispar_response rng randbelow name sun_sign moon_sign tone
         spirit g
       = Returns
           (("Your Mystic Companion" ++ " 🧚: Hello " ++ first ++ "!")
            ++ " "
            ++ ("With Sun in " ++ sun_sign ++ " and Moon in " ++ moon_sign
                ++ ", " ++ phrase ++ " As your "
                ++ persona (dict_get PERSONA_VARIATIONS spirit
                              (mk_persona "Mystic guide" tone))
                ++ ", I say..."),
            g').
Proof. exact (generate_alispar_response_spec rng randbelow name sun_sign moon_sign tone spirit g). Qed.

Lemma generate_alispar_response_greets_witness :
  exists pre first rest pool phrase g',
    " Mahan H R Gowda" = pre ++ first ++ rest
    /\ blank pre = true /\ first <> "" /\ no_space first = true
    /\ word_end rest
    /\ lookup PHRASE_POOLS
         (style (dict_get PERSONA_VARIATIONS "Otter 🦦"
                   (mk_persona "Mystic guide" "airy"))) = Some pool
    /\ In phrase pool
    /\ generate_alispar_response unit first_choice " Mahan H R Gowda"
         "Cancer" "Leo" "airy" "Otter 🦦" tt
       = Returns
           (("Your Mystic Companion" ++ " 🧚: Hello " ++ first ++ "!")
            ++ " "
            ++ ("With Sun in " ++ "Cancer" ++ " and Moon in " ++ "Leo"
                ++ ", " ++ phrase ++ " As your "
                ++ persona (dict_get PERSONA_VARIATIONS "Otter 🦦"
                              (mk_persona "Mystic guide" "airy"))
                ++ ", I say..."),
            g').
Proof.
  apply (generate_alispar_response_greets unit first_choice).
  - intros g n Hn. simpl. lia.
  - reflexivity.
  - reflexivity.
  - left. discriminate.
Defined.

(** For a spirit without persona the reply falls back on the tone, and a
    tone that is no key of [PHRASE_POOLS] makes the subscript raise
    [KeyError] (after the name was split, so for a name with a word in
    it). *)
Theorem generate_alispar_response_unknown_tone
    (rng : Type) (randbelow : rng -> Z -> Z * rng)
    (name sun_sign moon_sign tone spirit : string) (g : rng) :
  is_ascii name = true -> blank name = false ->
  lookup PERSONA_VARIATIONS spirit = None ->
  lookup PHRASE_POOLS tone = None ->
  generate_alispar_response rng randbelow name sun_sign moon_sign tone spirit g
  = Raises KeyError.
Proof.
  intros _ Hname Hsp Htone.
  destruct (split_first name Hname) as (pre & first & rest & ws & Hs & _).
  unfold generate_alispar_response, mbind, of_outcome, dict_getitem, dict_get.
  rewrite Hs, Hsp. simpl lift. cbv iota. simpl style.
  rewrite Htone. reflexivity.
Qed.

Lemma generate_alispar_response_unknown_tone_witness :
  generate_alispar_response unit first_choice "Mahan" "Cancer" "Leo" "icy"
    "Unicorn" tt
  = Raises KeyError.
Proof.
  apply generate_alispar_response_unknown_tone; reflexivity.
Defined.

(** However the three picks were drawn, the chat reply for any of them is
    returned -- for an ASCII name with a word in it -- whatever the tone
    is: a matched spirit always has a persona, so the tone is not
    consulted. *)
Theorem reply_to_matched_spirit
    (rng : Type) (randbelow : rng -> Z -> Z * rng)
    (name sun_sign moon_sign tone vib bio reply_tone : string)
    (picks : list pick) (p : pick) (g g1 g2 : rng) :
  (forall g n, (0 < n)%Z -> (0 <= fst (randbelow g n) < n)%Z) ->
  is_ascii name = true -> blank name = false ->
  match_spirits rng randbelow sun_sign moon_sign tone vib bio g
  = Returns (picks, g1) ->
  In p picks ->
  exists reply g3,
    generate_alispar_response rng randbelow name sun_sign moon_sign
      reply_tone (spirit p) g2
    = Returns (reply, g3).
Proof.
  intros Hrange Hascii Hname Hm Hin.
  destruct (match_spirits_spec rng randbelow sun_sign moon_sign tone vib bio g
              Hrange)
    as (p1 & p2 & p3 & g' & Heq & _ & _ & _ & _ & _ & Hall).
  rewrite Heq in Hm. injection Hm as <- <-.
  destruct (Hall p Hin) as (e & pool & He & _).
  destruct (generate_alispar_response_spec rng randbelow name sun_sign
              moon_sign reply_tone (spirit p) g2 Hrange Hascii Hname)
    as (pre & first & rest & pool' & phrase & g3 & _ & _ & _ & _ & _ & _ & _
        & Hr).
  { left. congruence. }
  eexists; exists g3. exact Hr.
Qed.

Lemma reply_to_matched_spirit_witness :
  exists reply g3,
    generate_alispar_response unit first_choice "Mahan H R Gowda"
      "Cancer" "Leo" "icy"
      (spirit (mk_pick "Guardian" "Phoenix 🔥" "Moon in Leo (fire)")) tt
    = Returns (reply, g3).
Proof.
  apply (reply_to_matched_spirit unit first_choice "Mahan H R Gowda"
           "Cancer" "Leo" "airy" "animal" "tropical" "icy"
           [ mk_pick "Primary Familiar" "Otter 🦦" "Born under Cancer (water)";
             mk_pick "Guardian" "Phoenix 🔥" "Moon in Leo (fire)";
             mk_pick "Whisperer" "Phoenix 🔥"
               "Phonetic vibe: animal, bioregion: tropical" ]
           (mk_pick "Guardian" "Phoenix 🔥" "Moon in Leo (fire)") tt tt tt).
  - intros g n Hn. simpl. lia.
  - reflexivity.
  - reflexivity.
  - reflexivity.
  - right. left. reflexivity.
Defined.

(** ** Where the ascendant always returns *)

(** Within two centuries of J2000.0 the obliquity stays between 23 and 24
    degrees. *)
Lemma obliquity_bounds (jd : R) :
  -73050 <= jd - 2451545 <= 73050 ->
  23 < obliquity_of_ecliptic jd < 24.
Proof.
  intros H. unfold obliquity_of_ecliptic.
  set (t := (jd - 2451545) / 36525).
  assert (Ht : -2 <= t <= 2) by (unfold t; lra).
  set (Q := 0.00059 - t * 0.001813).
  assert (HQ : -0.005 <= Q <= 0.005) by (unfold Q; lra).
  assert (HtQ : -0.01 <= t * Q <= 0.01) by nra.
  set (P := 46.815 + t * Q).
  assert (HP : 46.8 <= P <= 46.83) by (unfold P; lra).
  assert (HtP : -93.66 <= t * P <= 93.66) by nra.
  lra.
Qed.

Lemma tan_cos (x : R) : cos x <> 0 -> tan x * cos x = sin x.
Proof. intros H. unfold tan. field. exact H. Qed.

(** Outside the tropics, short of the poles, the divisor of [tan_asc] cannot
    vanish: for every Julian Day within two centuries of J2000.0 and every
    longitude, a latitude of at least 24 degrees north or south gives an
    ascendant in [0, 360) and no [ZeroDivisionError]. *)
Theorem ascendant_returns_outside_tropics (jd latitude longitude : R) :
  -73050 <= jd - 2451545 <= 73050 ->
  (24 <= latitude < 90 \/ -90 < latitude <= -24) ->
  exists v,
    approximate_ascendant_longitude jd latitude longitude = Ok v
    /\ 0 <= v < 360.
Proof.
  intros Hjd Hlat. apply ascendant_returns. unfold ascendant_divisor.
  pose proof (obliquity_bounds jd Hjd) as [He0 He1].
  set (eps := obliquity_of_ecliptic jd) in *.
  pose proof (sin_radians_pos eps ltac:(lra)) as Hs.
  pose proof (cos_radians_pos eps ltac:(lra)) as Hc.
  pose proof (tan_cos (radians eps) ltac:(lra)) as Htc.
  pose proof (SIN_bound (radians (local_sidereal_time jd longitude)))
    as [Hl0 Hl1].
  pose proof PI_RGT_0 as Hpi.
  assert (Hmono : forall a b, -90 < a -> a < b -> b < 90 ->
                              tan (radians a) < tan (radians b)).
  { intros a b Ha Hab Hb. unfold radians. apply tan_increasing; nra. }
  destruct Hlat as [[H0 H1]|[H0 H1]].
  - pose proof (Hmono eps latitude ltac:(lra) ltac:(lra) H1) as Ht.
    apply Rgt_not_eq, Rlt_gt. nra.
  - pose proof (Hmono latitude (- eps) H0 ltac:(lra) ltac:(lra)) as Ht.
    replace (radians (- eps)) with (- radians eps) in Ht
      by (unfold radians; ring).
    rewrite tan_neg in Ht.
    apply Rlt_not_eq. nra.
Qed.

Lemma ascendant_returns_outside_tropics_witness :
  exists v,
    approximate_ascendant_longitude 2451545 51.5 0 = Ok v /\ 0 <= v < 360.
Proof.
  apply ascendant_returns_outside_tropics; [lra | left; lra].
Defined.
